(** * Pose: rigid-body transforms of M-LOAM (estimator/pose.cpp)

    A shallow embedding of [pose.cpp]: the [Pose] value (rotation quaternion
    [q_], translation [t_], cached homogeneous matrix [T_], time offset
    [td_]), its constructors, [poseTransform], [inverse], [operator*] and
    [computeMeanPose].

    The C++ code computes on [double].  The embedding is written once over an
    interface of scalar operations ([Scalar]) and read at two instances:
    - [PrimFloat.float], IEEE-754 binary64, the arithmetic the program runs;
      every definition evaluates there, NaN and infinities included;
    - [R], exact real arithmetic, in which the algebraic laws of the pose
      algebra hold without rounding error. *)

From Stdlib Require Import List Bool ZArith.
From Stdlib Require Import Floats.
From Stdlib Require Import Reals Lra RNsatz.
From Stdlib Require Import Permutation.
Import ListNotations.

Set Implicit Arguments.

(** ** Scalars *)

(** What the code needs of [double]: the literals [0], [1], [2] and [0.5],
    the four operations, negation, [sqrt], and the comparison [a > b]. *)
Class Scalar (A : Type) : Type := {
  s_zero : A;
  s_one : A;
  s_two : A;
  s_half : A;
  s_add : A -> A -> A;
  s_sub : A -> A -> A;
  s_mul : A -> A -> A;
  s_div : A -> A -> A;
  s_neg : A -> A;
  s_sqrt : A -> A;
  s_gtb : A -> A -> bool
}.

Declare Scope scalar_scope.
Delimit Scope scalar_scope with S.
Infix "+" := s_add : scalar_scope.
Infix "-" := s_sub : scalar_scope.
Infix "*" := s_mul : scalar_scope.
Infix "/" := s_div : scalar_scope.
Notation "- x" := (s_neg x) : scalar_scope.
Infix ">?" := s_gtb (at level 70, no associativity) : scalar_scope.

(** binary64: [a > b] is false as soon as one side is NaN. *)
#[export] Instance Scalar_float : Scalar float := {
  s_zero := 0%float;
  s_one := 1%float;
  s_two := 2%float;
  s_half := 0.5%float;
  s_add := PrimFloat.add;
  s_sub := PrimFloat.sub;
  s_mul := PrimFloat.mul;
  s_div := PrimFloat.div;
  s_neg := PrimFloat.opp;
  s_sqrt := PrimFloat.sqrt;
  s_gtb := fun a b => PrimFloat.ltb b a
}.

(** Exact arithmetic. *)
#[export] Instance Scalar_R : Scalar R := {
  s_zero := 0%R;
  s_one := 1%R;
  s_two := 2%R;
  s_half := (1 / 2)%R;
  s_add := Rplus;
  s_sub := Rminus;
  s_mul := Rmult;
  s_div := Rdiv;
  s_neg := Ropp;
  s_sqrt := sqrt;
  s_gtb := fun a b => if Rlt_dec b a then true else false
}.

(** ** Eigen values used by pose.cpp

    Eigen is a library the program links against.  The operations below
    are the ones pose.cpp calls, written after the scalar code of Eigen 3.3
    (Core/Dot.h, Geometry/Quaternion.h, Geometry/OrthoMethods.h): same
    formulas, same branches, sums bracketed as the unrolled reductions
    bracket them.  A vectorized build may add the same terms in another
    order, which moves a result by rounding only. *)

Section Eigen.
Context {A : Type} `{Scalar A}.
Local Open Scope scalar_scope.

(** [Eigen::Vector3d]. *)
Record Vector3d : Type := Vec3 { vx : A; vy : A; vz : A }.

(** [Eigen::Quaterniond]; the constructor takes [w] first, as in
    [Eigen::Quaterniond(w, x, y, z)]. *)
Record Quaterniond : Type := Quat { qw : A; qx : A; qy : A; qz : A }.

(** [Eigen::Matrix3d], entry [mIJ] is row [I], column [J]. *)
Record Matrix3d : Type := Mat3 {
  m00 : A; m01 : A; m02 : A;
  m10 : A; m11 : A; m12 : A;
  m20 : A; m21 : A; m22 : A
}.

(** [Eigen::Matrix4d]. *)
Record Matrix4d : Type := Mat4 {
  h00 : A; h01 : A; h02 : A; h03 : A;
  h10 : A; h11 : A; h12 : A; h13 : A;
  h20 : A; h21 : A; h22 : A; h23 : A;
  h30 : A; h31 : A; h32 : A; h33 : A
}.

Definition Vector3d_Zero : Vector3d := Vec3 s_zero s_zero s_zero.

Definition Quaterniond_Identity : Quaterniond :=
  Quat s_one s_zero s_zero s_zero.

Definition Matrix4d_Identity : Matrix4d :=
  Mat4 s_one s_zero s_zero s_zero
       s_zero s_one s_zero s_zero
       s_zero s_zero s_one s_zero
       s_zero s_zero s_zero s_one.

(** Vector arithmetic, coefficient by coefficient. *)
Definition vadd (a b : Vector3d) : Vector3d :=
  Vec3 (vx a + vx b) (vy a + vy b) (vz a + vz b).

Definition vneg (a : Vector3d) : Vector3d :=
  Vec3 (- vx a) (- vy a) (- vz a).

Definition vscale (s : A) (a : Vector3d) : Vector3d :=
  Vec3 (s * vx a) (s * vy a) (s * vz a).

Definition vdiv (a : Vector3d) (s : A) : Vector3d :=
  Vec3 (vx a / s) (vy a / s) (vz a / s).

Definition cross (a b : Vector3d) : Vector3d :=
  Vec3 (vy a * vz b - vz a * vy b)
       (vz a * vx b - vx a * vz b)
       (vx a * vy b - vy a * vx b).

(** Blocks of a 4x4 matrix: [topLeftCorner<3,3>()] and
    [topRightCorner<3,1>()], read and written. *)
Definition topLeftCorner (T : Matrix4d) : Matrix3d :=
  Mat3 (h00 T) (h01 T) (h02 T)
       (h10 T) (h11 T) (h12 T)
       (h20 T) (h21 T) (h22 T).

Definition topRightCorner (T : Matrix4d) : Vector3d :=
  Vec3 (h03 T) (h13 T) (h23 T).

Definition bottomRow (T : Matrix4d) : A * A * A * A :=
  (h30 T, h31 T, h32 T, h33 T).

Definition set_topLeftCorner (T : Matrix4d) (R : Matrix3d) : Matrix4d :=
  Mat4 (m00 R) (m01 R) (m02 R) (h03 T)
       (m10 R) (m11 R) (m12 R) (h13 T)
       (m20 R) (m21 R) (m22 R) (h23 T)
       (h30 T) (h31 T) (h32 T) (h33 T).

Definition set_topRightCorner (T : Matrix4d) (t : Vector3d) : Matrix4d :=
  Mat4 (h00 T) (h01 T) (h02 T) (vx t)
       (h10 T) (h11 T) (h12 T) (vy t)
       (h20 T) (h21 T) (h22 T) (vz t)
       (h30 T) (h31 T) (h32 T) (h33 T).

(** Entry [(i, j)] of a 3x3 matrix, for the index arithmetic of the
    matrix-to-quaternion conversion. *)
Definition coeff (m : Matrix3d) (i j : nat) : A :=
  match i, j with
  | 0, 0 => m00 m | 0, 1 => m01 m | 0, 2 => m02 m
  | 1, 0 => m10 m | 1, 1 => m11 m | 1, 2 => m12 m
  | 2, 0 => m20 m | 2, 1 => m21 m | 2, 2 => m22 m
  | _, _ => s_zero
  end%nat.

(** Coefficient [i] of a quaternion in Eigen's storage order x, y, z, w. *)
Definition set_coeff (q : Quaterniond) (i : nat) (v : A) : Quaterniond :=
  match i with
  | 0 => Quat (qw q) v (qy q) (qz q)
  | 1 => Quat (qw q) (qx q) v (qz q)
  | 2 => Quat (qw q) (qx q) (qy q) v
  | _ => Quat v (qx q) (qy q) (qz q)
  end%nat.

(** [squaredNorm()] of the coefficient vector (x, y, z, w). *)
Definition squaredNorm (q : Quaterniond) : A :=
  (qx q * qx q + qy q * qy q) + (qz q * qz q + qw q * qw q).

(** [norm()]. *)
Definition norm (q : Quaterniond) : A := s_sqrt (squaredNorm q).

(** [normalize()]:
    [z = squaredNorm(); if (z > 0) coeffs /= sqrt(z);]
    a quaternion of squared norm zero (or NaN) is left as it is. *)
Definition normalize (q : Quaterniond) : Quaterniond :=
  let z := squaredNorm q in
  if z >? s_zero then
    let n := s_sqrt z in
    Quat (qw q / n) (qx q / n) (qy q / n) (qz q / n)
  else q.

(** [conjugate()]. *)
Definition conjugate (q : Quaterniond) : Quaterniond :=
  Quat (qw q) (- qx q) (- qy q) (- qz q).

(** [Quaterniond::inverse()]:
    [n2 = squaredNorm(); if (n2 > 0) conjugate / n2 else zero]. *)
Definition qinverse (q : Quaterniond) : Quaterniond :=
  let n2 := squaredNorm q in
  if n2 >? s_zero then
    let c := conjugate q in
    Quat (qw c / n2) (qx c / n2) (qy c / n2) (qz c / n2)
  else Quat s_zero s_zero s_zero s_zero.

(** Quaternion product [a * b]. *)
Definition qmul (a b : Quaterniond) : Quaterniond :=
  Quat (qw a * qw b - qx a * qx b - qy a * qy b - qz a * qz b)
       (qw a * qx b + qx a * qw b + qy a * qz b - qz a * qy b)
       (qw a * qy b + qy a * qw b + qz a * qx b - qx a * qz b)
       (qw a * qz b + qz a * qw b + qx a * qy b - qy a * qx b).

(** Quaternion applied to a vector, [q * v]:
    [uv = q.vec().cross(v); uv += uv;
     return v + q.w() * uv + q.vec().cross(uv);] *)
Definition qrot (q : Quaterniond) (v : Vector3d) : Vector3d :=
  let u := Vec3 (qx q) (qy q) (qz q) in
  let uv := cross u v in
  let uv := vadd uv uv in
  vadd (vadd v (vscale (qw q) uv)) (cross u uv).

(** [toRotationMatrix()]. *)
Definition toRotationMatrix (q : Quaterniond) : Matrix3d :=
  let tx := s_two * qx q in
  let ty := s_two * qy q in
  let tz := s_two * qz q in
  let twx := tx * qw q in
  let twy := ty * qw q in
  let twz := tz * qw q in
  let txx := tx * qx q in
  let txy := ty * qx q in
  let txz := tz * qx q in
  let tyy := ty * qy q in
  let tyz := tz * qy q in
  let tzz := tz * qz q in
  Mat3 (s_one - (tyy + tzz)) (txy - twz) (txz + twy)
       (txy + twz) (s_one - (txx + tzz)) (tyz - twx)
       (txz - twy) (tyz + twx) (s_one - (txx + tyy)).

(** [trace()]. *)
Definition trace (m : Matrix3d) : A := m00 m + (m11 m + m22 m).

(** [Eigen::Quaterniond(const Matrix3d &)]: the conversion of a rotation
    matrix, branching on the trace and then on the largest diagonal entry.
    It does not normalize its result. *)
Definition Quaterniond_of_matrix (mat : Matrix3d) : Quaterniond :=
  let t := trace mat in
  if t >? s_zero then
    let t := s_sqrt (t + s_one) in
    let w := s_half * t in
    let t := s_half / t in
    Quat w
         ((m21 mat - m12 mat) * t)
         ((m02 mat - m20 mat) * t)
         ((m10 mat - m01 mat) * t)
  else
    let i := 0%nat in
    let i := if m11 mat >? m00 mat then 1%nat else i in
    let i := if m22 mat >? coeff mat i i then 2%nat else i in
    let j := ((i + 1) mod 3)%nat in
    let k := ((j + 1) mod 3)%nat in
    let t := s_sqrt (coeff mat i i - coeff mat j j - coeff mat k k + s_one) in
    let q := Quat s_zero s_zero s_zero s_zero in
    let q := set_coeff q i (s_half * t) in
    let t := s_half / t in
    let q := set_coeff q 3 ((coeff mat k j - coeff mat j k) * t) in
    let q := set_coeff q j ((coeff mat j i + coeff mat i j) * t) in
    let q := set_coeff q k ((coeff mat k i + coeff mat i k) * t) in
    q.

End Eigen.

Arguments Vector3d A : clear implicits.
Arguments Quaterniond A : clear implicits.
Arguments Matrix3d A : clear implicits.
Arguments Matrix4d A : clear implicits.

(** ** The odometry record read by a constructor *)

(** [nav_msgs::Odometry] with the messages it nests ([std_msgs/Header],
    [geometry_msgs/PoseWithCovariance], [geometry_msgs/TwistWithCovariance]).
    Field paths read as in the code: [odom.pose.pose.orientation.w] is
    [ow (orientation (pose (odom_pose odom)))]. *)
Section Odometry.
Variable A : Type.

Record Header : Type := mkHeader {
  seq : Z;
  stamp_sec : Z;
  stamp_nsec : Z;
  frame_id : list Byte.byte
}.

Record Point : Type := mkPoint { px : A; py : A; pz : A }.

Record Orientation : Type := mkOrientation { ox : A; oy : A; oz : A; ow : A }.

Record geometry_Pose : Type := mkGeometryPose {
  position : Point;
  orientation : Orientation
}.

Record PoseWithCovariance : Type := mkPoseWithCovariance {
  pose : geometry_Pose;
  pose_covariance : list A
}.

Record TwistWithCovariance : Type := mkTwistWithCovariance {
  linear : A * A * A;
  angular : A * A * A;
  twist_covariance : list A
}.

Record Odometry : Type := mkOdometry {
  header : Header;
  child_frame_id : list Byte.byte;
  odom_pose : PoseWithCovariance;
  odom_twist : TwistWithCovariance
}.

End Odometry.

(** ** Pose *)

Section PoseDef.
Context {A : Type} `{Scalar A}.
Local Open Scope scalar_scope.

(** The data members of [class Pose]. *)
Record Pose : Type := mkPose {
  q_ : Quaterniond A;
  t_ : Vector3d A;
  T_ : Matrix4d A;
  td_ : A
}.

(** Modelled from the spec: the default argument [td = 0] that pose.h (not
    among the sources) gives the constructors taking a time offset; the spec
    writes these constructors [(quaternion, translation, time_offset=0)]. *)
Definition td_default : A := s_zero.

(** Modelled from the spec: the value of the member [td_] when a constructor
    body does not assign it.  The member is declared in pose.h (not among the
    sources); the spec says of that case "no time offset set (defaults to
    0)". *)
Definition td_unset : A := s_zero.

(** [Pose::Pose()] *)
Definition Pose_default : Pose :=
  {| q_ := Quaterniond_Identity;
     t_ := Vector3d_Zero;
     T_ := Matrix4d_Identity;
     td_ := s_zero |}.

(** [Pose::Pose(const Pose &pose)] *)
Definition Pose_copy (pose : Pose) : Pose :=
  {| q_ := q_ pose; t_ := t_ pose; T_ := T_ pose; td_ := td_ pose |}.

(** [Pose::Pose(const Eigen::Quaterniond &q, const Eigen::Vector3d &t,
    const double &td)] *)
Definition Pose_Quaterniond (q : Quaterniond A) (t : Vector3d A) (td : A)
  : Pose :=
  let q_ := normalize q in
  let t_ := t in
  let T := Matrix4d_Identity in
  let T := set_topLeftCorner T (toRotationMatrix q_) in
  let T := set_topRightCorner T t_ in
  mkPose q_ t_ T td.

(** [Pose::Pose(const Eigen::Matrix3d &R, const Eigen::Vector3d &t,
    const double &td)]: the quaternion converted from [R] is stored as
    converted, and [R] itself goes into the cache. *)
Definition Pose_Matrix3d (R : Matrix3d A) (t : Vector3d A) (td : A) : Pose :=
  let q_ := Quaterniond_of_matrix R in
  let t_ := t in
  let T := Matrix4d_Identity in
  let T := set_topLeftCorner T R in
  let T := set_topRightCorner T t_ in
  mkPose q_ t_ T td.

(** [Pose::Pose(const Eigen::Matrix4d &T, const double &td)]: the cache is
    the argument, all sixteen entries. *)
Definition Pose_Matrix4d (T : Matrix4d A) (td : A) : Pose :=
  let q_ := normalize (Quaterniond_of_matrix (topLeftCorner T)) in
  let t_ := topRightCorner T in
  mkPose q_ t_ T td.

(** [Pose::Pose(const nav_msgs::Odometry &odom)]: no [normalize()] and no
    assignment to [td_] in this body. *)
Definition Pose_Odometry (odom : Odometry A) : Pose :=
  let o := orientation (pose (odom_pose odom)) in
  let p := position (pose (odom_pose odom)) in
  let q_ := Quat (ow o) (ox o) (oy o) (oz o) in
  let t_ := Vec3 (px p) (py p) (pz p) in
  let T := Matrix4d_Identity in
  let T := set_topLeftCorner T (toRotationMatrix q_) in
  let T := set_topRightCorner T t_ in
  mkPose q_ t_ T td_unset.

(** [Pose::poseTransform]:
    [return Pose(pose1.q_*pose2.q_, pose1.q_*pose2.t_+pose1.t_);] *)
Definition poseTransform (pose1 pose2 : Pose) : Pose :=
  Pose_Quaterniond (qmul (q_ pose1) (q_ pose2))
                   (vadd (qrot (q_ pose1) (t_ pose2)) (t_ pose1))
                   td_default.

(** [Pose::inverse]:
    [return Pose(q_.inverse(), -(q_.inverse()*t_));] *)
Definition inverse (this : Pose) : Pose :=
  Pose_Quaterniond (qinverse (q_ this))
                   (vneg (qrot (qinverse (q_ this)) (t_ this)))
                   td_default.

(** [Pose::operator*]: [return Pose(q_*pose.q_, q_*pose.t_+t_);] *)
Definition Pose_mul (this pose : Pose) : Pose :=
  Pose_Quaterniond (qmul (q_ this) (q_ pose))
                   (vadd (qrot (q_ this) (t_ pose)) (t_ this))
                   td_default.

(** The three loops of [computeMeanPose] over [pose_array]. *)
Definition weight_total (pose_array : list (A * Pose)) : A :=
  fold_left (fun acc e => acc + fst e) pose_array s_zero.

Definition t_sum (pose_array : list (A * Pose)) : Vector3d A :=
  fold_left (fun acc e => vadd acc (vscale (fst e) (t_ (snd e))))
            pose_array Vector3d_Zero.

(** The accumulators [x, y, z, w], kept as one quadruple. *)
Definition q_sum (pose_array : list (A * Pose)) : A * A * A * A :=
  fold_left
    (fun acc e =>
       let '(x, y, z, w) := acc in
       (x + fst e * qx (q_ (snd e)),
        y + fst e * qy (q_ (snd e)),
        z + fst e * qz (q_ (snd e)),
        w + fst e * qw (q_ (snd e))))
    pose_array (s_zero, s_zero, s_zero, s_zero).

(** [computeMeanPose(pose_array, pose_mean)]: the value written to the
    output parameter [pose_mean], whose former value is overwritten.  The
    lines sent to [std::cout] are not part of the model. *)
Definition computeMeanPose (pose_array : list (A * Pose)) (pose_mean : Pose)
  : Pose :=
  let weight_total := weight_total pose_array in
  let t_mean := t_sum pose_array in
  let t_mean := vdiv t_mean weight_total in
  let '(x, y, z, w) := q_sum pose_array in
  let x := x / weight_total in
  let y := y / weight_total in
  let z := z / weight_total in
  let w := w / weight_total in
  let q_mean := Quat w x y z in
  Pose_Quaterniond q_mean t_mean td_default.

End PoseDef.

Arguments Pose A : clear implicits.

(** ** Properties the specification speaks of *)

Section PoseProperties.
Context {A : Type} `{Scalar A}.

(** The cached matrix agrees with the canonical fields: rotation block,
    translation block, bottom row (0 0 0 1). *)
Definition cache_consistent (p : Pose A) : Prop :=
  topLeftCorner (T_ p) = toRotationMatrix (q_ p) /\
  topRightCorner (T_ p) = t_ p /\
  bottomRow (T_ p) = (s_zero, s_zero, s_zero, s_one).

(** A pose with another time offset and the same geometry. *)
Definition with_td (p : Pose A) (td : A) : Pose A :=
  mkPose (q_ p) (t_ p) (T_ p) td.

(** The rotation of a composition is the plain quaternion product. *)
Definition rotation_is_product (pose1 pose2 : Pose A) : Prop :=
  q_ (poseTransform pose1 pose2) = qmul (q_ pose1) (q_ pose2).

(** An odometry record that keeps the nested pose of [odom] and takes every
    other field from elsewhere. *)
Definition same_pose_other_fields (odom : Odometry A) (h : Header)
    (c : list Byte.byte) (cov : list A) (tw : TwistWithCovariance A)
  : Odometry A :=
  mkOdometry h c (mkPoseWithCovariance (pose (odom_pose odom)) cov) tw.

End PoseProperties.

(** ** Reading the model on binary64 *)

Module Binary64.
Local Open Scope float_scope.

(** The tolerance the specification names, 1e-9, rounded to binary64. *)
Definition tol : float := 0x1.12e0be826d695p-30.

Definition approx (a b : float) : bool := abs (a - b) <=? tol.

Definition qapprox (a b : Quaterniond float) : bool :=
  approx (qw a) (qw b) && approx (qx a) (qx b) &&
  approx (qy a) (qy b) && approx (qz a) (qz b).

Definition vapprox (a b : Vector3d float) : bool :=
  approx (vx a) (vx b) && approx (vy a) (vy b) && approx (vz a) (vz b).

(** Norm 1.0 within the tolerance. *)
Definition unit_norm (q : Quaterniond float) : bool := approx (norm q) 1.

Definition q_has_nan (q : Quaterniond float) : bool :=
  is_nan (qw q) || is_nan (qx q) || is_nan (qy q) || is_nan (qz q).

Definition q_all_nan (q : Quaterniond float) : bool :=
  is_nan (qw q) && is_nan (qx q) && is_nan (qy q) && is_nan (qz q).

Definition v_all_nan (v : Vector3d float) : bool :=
  is_nan (vx v) && is_nan (vy v) && is_nan (vz v).

(** Not a finite number: NaN or an infinity. *)
Definition non_finite (x : float) : bool := negb (is_finite x).

Definition v_non_finite (v : Vector3d float) : bool :=
  non_finite (vx v) && non_finite (vy v) && non_finite (vz v).

(** Some rotation or translation component of the pose is NaN. *)
Definition has_nan (p : Pose float) : bool :=
  q_has_nan (q_ p) || is_nan (vx (t_ p)) || is_nan (vy (t_ p))
  || is_nan (vz (t_ p)).

(** The degenerate inputs of the averaging: no entry, or total weight zero.
    The empty collection has total weight [0], so the second covers it. *)
Definition zero_total (pose_array : list (float * Pose float)) : bool :=
  weight_total pose_array =? 0.

(** What the specification asks of a degenerate input: no NaN comes out. *)
Definition degenerate_is_defined (pose_array : list (float * Pose float))
    (pose_mean : Pose float) : Prop :=
  zero_total pose_array = true ->
  has_nan (computeMeanPose pose_array pose_mean) = false.

(** Both ways of bracketing a triple composition agree within tolerance. *)
Definition assoc_within_tol (a b c : Pose float) : Prop :=
  qapprox (q_ (poseTransform (poseTransform a b) c))
          (q_ (poseTransform a (poseTransform b c))) = true /\
  vapprox (t_ (poseTransform (poseTransform a b) c))
          (t_ (poseTransform a (poseTransform b c))) = true.


(** An odometry message with the given orientation (w, x, y, z) and
    position, and empty remaining fields. *)
Definition odometry_of (w x y z a b c : float) : Odometry float :=
  mkOdometry (mkHeader 0 0 0 []) []
    (mkPoseWithCovariance
       (mkGeometryPose (mkPoint a b c) (mkOrientation x y z w)) [])
    (mkTwistWithCovariance (0, 0, 0) (0, 0, 0) []).

(** An orientation of norm 2 about no axis: twice the identity. *)
Definition odom_twice_identity : Odometry float :=
  odometry_of 2 0 0 0 0 0 0.

(** An orientation of norm 2 along x. *)
Definition odom_twice_x : Odometry float := odometry_of 0 2 0 0 0 0 0.

(** Twice the 3x3 identity: not a rotation matrix. *)
Definition twice_identity3 : Matrix3d float := Mat3 2 0 0 0 2 0 0 0 2.

(** Twice the 4x4 identity. *)
Definition twice_identity4 : Matrix4d float :=
  Mat4 2 0 0 0 0 2 0 0 0 0 2 0 0 0 0 2.

(** The two poses of the specification's averaging example. *)
Definition example_pose_0 : Pose float :=
  Pose_Quaterniond Quaterniond_Identity (Vec3 0 0 0) 0.

Definition example_pose_2 : Pose float :=
  Pose_Quaterniond Quaterniond_Identity (Vec3 2 0 0) 0.

(** A pose with a rotation of 90 degrees about x, built by the normalizing
    constructor from the quaternion (1, 1, 0, 0). *)
Definition quarter_turn_x : Pose float :=
  Pose_Quaterniond (Quat 1 1 0 0) (Vec3 1 2 3) 0.

(** Two more poses built by the normalizing constructor. *)
Definition sample_b : Pose float :=
  Pose_Quaterniond (Quat 1 0 1 0) (Vec3 4 5 6) 0.

Definition sample_c : Pose float :=
  Pose_Quaterniond (Quat 1 2 3 4) (Vec3 (-7) 8 9) 0.

(** Every weight of the collection compares equal to zero. *)
Definition all_weights_zero (pose_array : list (float * Pose float)) : bool :=
  forallb (fun e => fst e =? 0) pose_array.

(** Classes of binary64 values, read on the specification-level floats of
    the standard library. *)
Definition sf_nan (s : spec_float) : bool :=
  match s with S754_nan => true | _ => false end.

Definition sf_inf (s : spec_float) : bool :=
  match s with S754_infinity _ => true | _ => false end.

Definition sf_zero (s : spec_float) : bool :=
  match s with S754_zero _ => true | _ => false end.

(** A zero or NaN: what a sum of products by zero weights can be. *)
Definition sf_zn (s : spec_float) : bool := sf_zero s || sf_nan s.

(** NaN or an infinity: what a division by zero can give. *)
Definition sf_ni (s : spec_float) : bool := sf_nan s || sf_inf s.

End Binary64.

(** ** Sample poses in exact arithmetic *)

Module Exact.
Local Open Scope R_scope.

(** The pose with rotation [q] and translation [t], its cache filled as the
    quaternion constructor fills it, leaving [q] as it is. *)
Definition pose_of (q : Quaterniond R) (t : Vector3d R) : Pose R :=
  mkPose q t
    (set_topRightCorner
       (set_topLeftCorner Matrix4d_Identity (toRotationMatrix q)) t)
    0.

(** Half turns about x and about y, and a pure translation. *)
Definition half_turn_x : Pose R := pose_of (Quat 0 1 0 0) (Vec3 1 2 3).

Definition half_turn_y : Pose R := pose_of (Quat 0 0 1 0) (Vec3 4 5 6).

Definition shift_x2 : Pose R := pose_of (Quat 1 0 0 0) (Vec3 2 0 0).

Definition origin : Pose R := pose_of (Quat 1 0 0 0) (Vec3 0 0 0).

End Exact.

(** ** Notions for the pose algebra *)

Section Homogeneous.
Context {A : Type} `{Scalar A}.
Local Open Scope scalar_scope.

(** The cache the quaternion constructor builds from a rotation and a
    translation: [T_.setIdentity()], then the two block assignments. *)
Definition cache_of (q : Quaterniond A) (t : Vector3d A) : Matrix4d A :=
  set_topRightCorner
    (set_topLeftCorner Matrix4d_Identity (toRotationMatrix q)) t.

(** The product of two 4x4 matrices, [X * Y]: entry (i, j) is the sum over
    k of [X(i,k) * Y(k,j)]. *)
Definition Matrix4d_mul (X Y : Matrix4d A) : Matrix4d A :=
  Mat4
       (h00 X * h00 Y + h01 X * h10 Y + h02 X * h20 Y + h03 X * h30 Y)
       (h00 X * h01 Y + h01 X * h11 Y + h02 X * h21 Y + h03 X * h31 Y)
       (h00 X * h02 Y + h01 X * h12 Y + h02 X * h22 Y + h03 X * h32 Y)
       (h00 X * h03 Y + h01 X * h13 Y + h02 X * h23 Y + h03 X * h33 Y)
       (h10 X * h00 Y + h11 X * h10 Y + h12 X * h20 Y + h13 X * h30 Y)
       (h10 X * h01 Y + h11 X * h11 Y + h12 X * h21 Y + h13 X * h31 Y)
       (h10 X * h02 Y + h11 X * h12 Y + h12 X * h22 Y + h13 X * h32 Y)
       (h10 X * h03 Y + h11 X * h13 Y + h12 X * h23 Y + h13 X * h33 Y)
       (h20 X * h00 Y + h21 X * h10 Y + h22 X * h20 Y + h23 X * h30 Y)
       (h20 X * h01 Y + h21 X * h11 Y + h22 X * h21 Y + h23 X * h31 Y)
       (h20 X * h02 Y + h21 X * h12 Y + h22 X * h22 Y + h23 X * h32 Y)
       (h20 X * h03 Y + h21 X * h13 Y + h22 X * h23 Y + h23 X * h33 Y)
       (h30 X * h00 Y + h31 X * h10 Y + h32 X * h20 Y + h33 X * h30 Y)
       (h30 X * h01 Y + h31 X * h11 Y + h32 X * h21 Y + h33 X * h31 Y)
       (h30 X * h02 Y + h31 X * h12 Y + h32 X * h22 Y + h33 X * h32 Y)
       (h30 X * h03 Y + h31 X * h13 Y + h32 X * h23 Y + h33 X * h33 Y).

(** The cached transform applied to a point: the first three coordinates of
    [T * (v, 1)]. *)
Definition transform_point (T : Matrix4d A) (v : Vector3d A) : Vector3d A :=
  Vec3 (h00 T * vx v + h01 T * vy v + h02 T * vz v + h03 T * s_one)
       (h10 T * vx v + h11 T * vy v + h12 T * vz v + h13 T * s_one)
       (h20 T * vx v + h21 T * vy v + h22 T * vz v + h23 T * s_one).

(** The accumulators of the rotation loop of [computeMeanPose], read as the
    quaternion (w, x, y, z) they are turned into after the division. *)
Definition q_total (pose_array : list (A * Pose A)) : Quaterniond A :=
  let '(x, y, z, w) := q_sum pose_array in Quat w x y z.

End Homogeneous.

Module Geometry.
Local Open Scope R_scope.

(** The other quaternion of the same rotation. *)
Definition qopp (q : Quaterniond R) : Quaterniond R :=
  Quat (- qw q) (- qx q) (- qy q) (- qz q).

(** Squared distance of two points. *)
Definition sq_dist (u v : Vector3d R) : R :=
  (vx u - vx v) * (vx u - vx v) + (vy u - vy v) * (vy u - vy v)
  + (vz u - vz v) * (vz u - vz v).

(** Dot product of two quaternions as 4-vectors. *)
Definition dot4 (a b : Quaterniond R) : R :=
  qw a * qw b + qx a * qx b + qy a * qy b + qz a * qz b.

(** [v] lies in the axis-aligned box between [lo] and [hi]. *)
Definition in_box (lo hi v : Vector3d R) : Prop :=
  vx lo <= vx v <= vx hi /\ vy lo <= vy v <= vy hi /\
  vz lo <= vz v <= vz hi.

(** The collection that gives the pose [p] once per weight of [ws]. *)
Definition copies (p : Pose R) (ws : list R) : list (R * Pose R) :=
  map (fun w => (w, p)) ws.

(** The collection with every weight multiplied by [k]. *)
Definition scale_weights (k : R) (l : list (R * Pose R))
  : list (R * Pose R) :=
  map (fun e => (k * fst e, snd e)) l.

(** Samples: the half turn about x written with the opposite quaternion, a
    collection of two translations, and an odometry record of unit
    orientation. *)
Definition half_turn_x_opp : Pose R :=
  Exact.pose_of (qopp (Quat 0 1 0 0)) (Vec3 1 2 3).

Definition two_translations : list (R * Pose R) :=
  [(1, Exact.origin); (1, Exact.shift_x2)].


End Geometry.

Module Binary64Edge.
Local Open Scope float_scope.

(** A quaternion whose squared norm overflows: 2^700 squared is beyond the
    largest binary64 number. *)
Definition huge_quaternion : Quaterniond float := Quat 0x1p700 0 0 0.

(** A quaternion with a NaN coefficient. *)
Definition nan_quaternion : Quaterniond float := Quat nan 0 0 0.

(** A pose whose rotation has a NaN coefficient, as the odometry constructor
    stores it from such an orientation. *)
Definition nan_pose : Pose float :=
  Pose_Odometry (Binary64.odometry_of nan 0 0 0 1 2 3).

End Binary64Edge.

(** ** Poses far from the origin, on binary64 *)

Module Binary64Far.
Import Binary64.
Local Open Scope float_scope.










End Binary64Far.

(** * Theorems *)

Unset Implicit Arguments.

(** ** Facts that hold in any arithmetic *)

Section Generic.
Context {A : Type} `{Scalar A}.

Lemma fold_left_map_agree (X Y B : Type) (g : B -> Y -> B) (g' : B -> X -> B)
    (f : X -> Y) :
  (forall acc e, g acc (f e) = g' acc e) ->
  forall l acc, fold_left g (map f l) acc = fold_left g' l acc.
Proof.
  intros Hg l; induction l as [|e l IH]; intros acc; simpl.
  - reflexivity.
  - rewrite Hg. apply IH.
Qed.

(** The three sums of the averaging do not look at the time offsets. *)
Lemma weight_total_with_td (g : A * Pose A -> A) (l : list (A * Pose A)) :
  weight_total (map (fun e => (fst e, with_td (snd e) (g e))) l)
  = weight_total l.
Proof.
  unfold weight_total. apply fold_left_map_agree. reflexivity.
Qed.

Lemma t_sum_with_td (g : A * Pose A -> A) (l : list (A * Pose A)) :
  t_sum (map (fun e => (fst e, with_td (snd e) (g e))) l) = t_sum l.
Proof.
  unfold t_sum. apply fold_left_map_agree. reflexivity.
Qed.

Lemma q_sum_with_td (g : A * Pose A -> A) (l : list (A * Pose A)) :
  q_sum (map (fun e => (fst e, with_td (snd e) (g e))) l) = q_sum l.
Proof.
  unfold q_sum. apply fold_left_map_agree. reflexivity.
Qed.

(** The quaternion constructor stores the normalized argument, the
    translation and the time offset as given, and a cache built from them. *)
Lemma Pose_Quaterniond_fields (q : Quaterniond A) (t : Vector3d A) (td : A) :
  q_ (Pose_Quaterniond q t td) = normalize q /\
  t_ (Pose_Quaterniond q t td) = t /\
  td_ (Pose_Quaterniond q t td) = td.
Proof. repeat split. Qed.

Lemma Pose_Quaterniond_cache (q : Quaterniond A) (t : Vector3d A) (td : A) :
  cache_consistent (Pose_Quaterniond q t td).
Proof.
  unfold cache_consistent, Pose_Quaterniond; simpl.
  destruct (toRotationMatrix (normalize q)), t; repeat split.
Qed.

Lemma Pose_Odometry_cache (odom : Odometry A) :
  cache_consistent (Pose_Odometry odom).
Proof.
  unfold cache_consistent, Pose_Odometry; simpl.
  match goal with |- context [toRotationMatrix ?q] =>
    destruct (toRotationMatrix q) end.
  repeat split.
Qed.

(** C3. The pose built from an odometry record depends on nothing but the
    nested pose of the record, that is the four orientation scalars and the
    three position scalars: replacing the header, the child frame, both
    covariances and the twist gives the same pose; the stored rotation and
    translation are those seven scalars; and the time offset, which the
    constructor does not assign, is the default 0. *)
Theorem Pose_Odometry_reads_pose_only (odom : Odometry A) (h : Header)
    (c : list Byte.byte) (cov : list A) (tw : TwistWithCovariance A) :
  Pose_Odometry (same_pose_other_fields odom h c cov tw) = Pose_Odometry odom
  /\ q_ (Pose_Odometry odom)
     = Quat (ow (orientation (pose (odom_pose odom))))
            (ox (orientation (pose (odom_pose odom))))
            (oy (orientation (pose (odom_pose odom))))
            (oz (orientation (pose (odom_pose odom))))
  /\ t_ (Pose_Odometry odom)
     = Vec3 (px (position (pose (odom_pose odom))))
            (py (position (pose (odom_pose odom))))
            (pz (position (pose (odom_pose odom))))
  /\ td_ (Pose_Odometry odom) = s_zero.
Proof. repeat split. Qed.

(** C4, as the code has it. For all poses, [poseTransform pose1 pose2] has
    as rotation the product [pose1.q_ * pose2.q_] passed through the
    constructor's [normalize()]: every coefficient of the product divided by
    the square root of its squared norm when that squared norm is greater
    than zero, the product unchanged otherwise.  Its translation is
    [pose1.q_] applied to [pose2.t_] plus [pose1.t_], and its time offset is
    the default 0, whatever the time offsets of the two poses. *)
Theorem poseTransform_fields (pose1 pose2 : Pose A) :
  q_ (poseTransform pose1 pose2) = normalize (qmul (q_ pose1) (q_ pose2)) /\
  q_ (poseTransform pose1 pose2)
  = (let p := qmul (q_ pose1) (q_ pose2) in
     if s_gtb (squaredNorm p) s_zero
     then Quat (s_div (qw p) (s_sqrt (squaredNorm p)))
               (s_div (qx p) (s_sqrt (squaredNorm p)))
               (s_div (qy p) (s_sqrt (squaredNorm p)))
               (s_div (qz p) (s_sqrt (squaredNorm p)))
     else p) /\
  t_ (poseTransform pose1 pose2)
    = vadd (qrot (q_ pose1) (t_ pose2)) (t_ pose1) /\
  td_ (poseTransform pose1 pose2) = s_zero /\
  (forall td1 td2,
     poseTransform (with_td pose1 td1) (with_td pose2 td2)
     = poseTransform pose1 pose2).
Proof. repeat split. Qed.

(** C5. The infix form [p1 * p2] and [poseTransform p1 p2] are the same
    pose, field by field: rotation, translation, cached transform and time
    offset; the left operand is the outer transform in both. *)
Theorem operator_mul_is_poseTransform (p1 p2 : Pose A) :
  Pose_mul p1 p2 = poseTransform p1 p2 /\
  q_ (Pose_mul p1 p2) = q_ (poseTransform p1 p2) /\
  t_ (Pose_mul p1 p2) = t_ (poseTransform p1 p2) /\
  T_ (Pose_mul p1 p2) = T_ (poseTransform p1 p2) /\
  td_ (Pose_mul p1 p2) = td_ (poseTransform p1 p2) /\
  t_ (Pose_mul p1 p2) = vadd (qrot (q_ p1) (t_ p2)) (t_ p1).
Proof. repeat split. Qed.

(** What each constructor leaves in the cache. A pose built from a
    quaternion or from an odometry record has a cache consistent with its
    fields: rotation block
    the rotation matrix of the stored quaternion, translation block the
    stored translation, bottom row (0 0 0 1).  A pose built from a 3x3
    matrix caches that matrix as given, next to the stored translation and
    the bottom row (0 0 0 1).  A pose built from a 4x4 matrix caches the
    argument unchanged; its translation block is the stored translation. *)
Theorem constructors_cache (q : Quaterniond A) (R : Matrix3d A)
    (T : Matrix4d A) (t : Vector3d A) (td : A) (odom : Odometry A) :
  cache_consistent (Pose_Quaterniond q t td) /\
  cache_consistent (Pose_Odometry odom) /\
  (topLeftCorner (T_ (Pose_Matrix3d R t td)) = R /\
   topRightCorner (T_ (Pose_Matrix3d R t td)) = t_ (Pose_Matrix3d R t td) /\
   bottomRow (T_ (Pose_Matrix3d R t td)) = (s_zero, s_zero, s_zero, s_one)) /\
  (T_ (Pose_Matrix4d T td) = T /\
   topRightCorner (T_ (Pose_Matrix4d T td)) = t_ (Pose_Matrix4d T td)).
Proof.
  split; [apply Pose_Quaterniond_cache|].
  split; [apply Pose_Odometry_cache|].
  split; [|split; reflexivity].
  destruct R, t; repeat split.
Qed.

(** C10. The pose written by [computeMeanPose] has time offset 0 for every
    input collection, so in particular for the non-empty ones of non-zero
    total weight, and it is the same pose when the time offsets of the
    input poses are replaced by arbitrary others: the averaging does not
    read them. *)
Theorem computeMeanPose_time_offset (pose_array : list (A * Pose A))
    (pose_mean : Pose A) (g : A * Pose A -> A) :
  td_ (computeMeanPose pose_array pose_mean) = s_zero /\
  computeMeanPose
    (map (fun e => (fst e, with_td (snd e) (g e))) pose_array) pose_mean
  = computeMeanPose pose_array pose_mean.
Proof.
  split.
  - unfold computeMeanPose.
    destruct (q_sum pose_array) as [[[x y] z] w]. reflexivity.
  - unfold computeMeanPose.
    rewrite weight_total_with_td, t_sum_with_td, q_sum_with_td.
    reflexivity.
Qed.

End Generic.

(** ** Facts of the program as it runs, on binary64 *)

Module Binary64Facts.
Import Binary64.
Local Open Scope float_scope.

(** Two floats that [=?] tells apart are different. *)
Lemma float_neq (a b : float) : (a =? b) = false -> (b =? b) = true -> a <> b.
Proof.
  intros Hab Hbb E. rewrite E, Hbb in Hab. discriminate.
Qed.

(** *** Classes of floats *)

Lemma SFeqb_finite_refl s m e :
  SFeqb (S754_finite s m e) (S754_finite s m e) = true.
Proof.
  unfold SFeqb, SFcompare.
  destruct s; rewrite Z.compare_refl, Pos.compare_cont_refl; reflexivity.
Qed.

Lemma is_nan_spec x : is_nan x = sf_nan (Prim2SF x).
Proof.
  unfold is_nan. rewrite eqb_spec.
  destruct (Prim2SF x) as [s| [|] | |s m e]; try reflexivity.
  rewrite SFeqb_finite_refl. reflexivity.
Qed.

Lemma non_finite_spec x : non_finite x = sf_ni (Prim2SF x).
Proof.
  unfold non_finite, is_finite, sf_ni.
  rewrite negb_involutive, is_nan_spec.
  unfold is_infinity. rewrite eqb_spec, abs_spec.
  destruct (Prim2SF x) as [s| [|] | |s m e]; reflexivity.
Qed.

Lemma eqb_zero_spec x : (x =? 0) = sf_zero (Prim2SF x).
Proof.
  rewrite eqb_spec.
  destruct (Prim2SF x) as [s| [|] | |[|] m e]; reflexivity.
Qed.

(** Anything divided by a zero is NaN or infinite. *)
Lemma div_zero_ni s wt :
  sf_zero (Prim2SF wt) = true -> sf_ni (Prim2SF (s / wt)) = true.
Proof.
  rewrite div_spec.
  destruct (Prim2SF wt); try discriminate.
  destruct (Prim2SF s); reflexivity.
Qed.

(** A zero or NaN divided by a zero is NaN. *)
Lemma div_zn_zero_nan s wt :
  sf_zn (Prim2SF s) = true -> sf_zero (Prim2SF wt) = true ->
  sf_nan (Prim2SF (s / wt)) = true.
Proof.
  rewrite div_spec.
  destruct (Prim2SF wt); try discriminate.
  destruct (Prim2SF s); try discriminate; reflexivity.
Qed.

Lemma mul_zero_zn w t :
  sf_zero (Prim2SF w) = true -> sf_zn (Prim2SF (w * t)) = true.
Proof.
  rewrite mul_spec.
  destruct (Prim2SF w); try discriminate.
  destruct (Prim2SF t); reflexivity.
Qed.

Lemma add_zn a b :
  sf_zn (Prim2SF a) = true -> sf_zn (Prim2SF b) = true ->
  sf_zn (Prim2SF (a + b)) = true.
Proof.
  rewrite add_spec.
  destruct (Prim2SF a) as [[|]| | |]; try discriminate;
  destruct (Prim2SF b) as [[|]| | |]; try discriminate; reflexivity.
Qed.

Lemma add_zero a b :
  sf_zero (Prim2SF a) = true -> sf_zero (Prim2SF b) = true ->
  sf_zero (Prim2SF (a + b)) = true.
Proof.
  rewrite add_spec.
  destruct (Prim2SF a) as [[|]| | |]; try discriminate;
  destruct (Prim2SF b) as [[|]| | |]; try discriminate; reflexivity.
Qed.

Lemma div_nan x n :
  sf_nan (Prim2SF x) = true -> sf_nan (Prim2SF (x / n)) = true.
Proof.
  rewrite div_spec. destruct (Prim2SF x); try discriminate. reflexivity.
Qed.

(** *** [normalize] on quaternions that are not finite *)

Lemma squaredNorm_inf (q : Quaterniond float) :
  sf_inf (Prim2SF (qw q)) = true -> sf_inf (Prim2SF (qx q)) = true ->
  sf_inf (Prim2SF (qy q)) = true -> sf_inf (Prim2SF (qz q)) = true ->
  Prim2SF (squaredNorm q) = S754_infinity false.
Proof.
  unfold squaredNorm; simpl.
  rewrite !add_spec, !mul_spec.
  destruct (Prim2SF (qw q)) as [|[|]| |]; try discriminate;
  destruct (Prim2SF (qx q)) as [|[|]| |]; try discriminate;
  destruct (Prim2SF (qy q)) as [|[|]| |]; try discriminate;
  destruct (Prim2SF (qz q)) as [|[|]| |]; try discriminate; reflexivity.
Qed.

(** A NaN coefficient is NaN after [normalize], on either branch. *)
Lemma normalize_keeps_nan (q : Quaterniond float) :
  (sf_nan (Prim2SF (qw q)) = true ->
   sf_nan (Prim2SF (qw (normalize q))) = true) /\
  (sf_nan (Prim2SF (qx q)) = true ->
   sf_nan (Prim2SF (qx (normalize q))) = true) /\
  (sf_nan (Prim2SF (qy q)) = true ->
   sf_nan (Prim2SF (qy (normalize q))) = true) /\
  (sf_nan (Prim2SF (qz q)) = true ->
   sf_nan (Prim2SF (qz (normalize q))) = true).
Proof.
  unfold normalize.
  destruct (s_gtb (squaredNorm q) s_zero); simpl;
    repeat split; intros Hn; try assumption; apply div_nan; assumption.
Qed.

(** Four infinite coefficients: the squared norm is [+inf], the division
    by its root is [inf / inf]. *)
Lemma normalize_all_inf (q : Quaterniond float) :
  sf_inf (Prim2SF (qw q)) = true -> sf_inf (Prim2SF (qx q)) = true ->
  sf_inf (Prim2SF (qy q)) = true -> sf_inf (Prim2SF (qz q)) = true ->
  q_all_nan (normalize q) = true.
Proof.
  intros Hw Hx Hy Hz.
  pose proof (squaredNorm_inf q Hw Hx Hy Hz) as Hn.
  unfold normalize.
  replace (s_gtb (squaredNorm q) s_zero) with true.
  2:{ change (true = PrimFloat.ltb 0 (squaredNorm q)).
      rewrite ltb_spec, Hn. reflexivity. }
  assert (Hs : Prim2SF (s_sqrt (squaredNorm q)) = S754_infinity false).
  { change (Prim2SF (PrimFloat.sqrt (squaredNorm q)) = S754_infinity false).
    rewrite sqrt_spec, Hn. reflexivity. }
  unfold q_all_nan; cbn [qw qx qy qz].
  change (@s_div float Scalar_float) with PrimFloat.div.
  rewrite !is_nan_spec, !div_spec, Hs.
  destruct (Prim2SF (qw q)); try discriminate;
  destruct (Prim2SF (qx q)); try discriminate;
  destruct (Prim2SF (qy q)); try discriminate;
  destruct (Prim2SF (qz q)); try discriminate; reflexivity.
Qed.

Lemma q_all_nan_has_nan q : q_all_nan q = true -> q_has_nan q = true.
Proof.
  unfold q_all_nan, q_has_nan. intros Hq.
  apply andb_prop in Hq as [Hq _]. apply andb_prop in Hq as [Hq _].
  apply andb_prop in Hq as [Hq _]. rewrite Hq. reflexivity.
Qed.

Lemma normalize_non_finite (q : Quaterniond float) :
  sf_ni (Prim2SF (qw q)) = true -> sf_ni (Prim2SF (qx q)) = true ->
  sf_ni (Prim2SF (qy q)) = true -> sf_ni (Prim2SF (qz q)) = true ->
  q_has_nan (normalize q) = true.
Proof.
  intros Hw Hx Hy Hz.
  destruct (normalize_keeps_nan q) as (Kw & Kx & Ky & Kz).
  unfold sf_ni in *.
  destruct (sf_nan (Prim2SF (qw q))) eqn:Ew.
  { unfold q_has_nan. rewrite (is_nan_spec (qw _)), Kw; reflexivity. }
  destruct (sf_nan (Prim2SF (qx q))) eqn:Ex.
  { unfold q_has_nan.
    rewrite (is_nan_spec (qx _)), Kx, ?orb_true_r; reflexivity. }
  destruct (sf_nan (Prim2SF (qy q))) eqn:Ey.
  { unfold q_has_nan.
    rewrite (is_nan_spec (qy _)), Ky, ?orb_true_r; reflexivity. }
  destruct (sf_nan (Prim2SF (qz q))) eqn:Ez.
  { unfold q_has_nan.
    rewrite (is_nan_spec (qz _)), Kz, ?orb_true_r; reflexivity. }
  apply q_all_nan_has_nan, normalize_all_inf; assumption.
Qed.

(** *** The sums of the averaging when every weight is zero *)

Lemma weight_fold_zero (l : list (float * Pose float)) :
  all_weights_zero l = true ->
  forall acc, sf_zero (Prim2SF acc) = true ->
  sf_zero (Prim2SF (fold_left (fun a e => s_add a (fst e)) l acc)) = true.
Proof.
  induction l as [|e l IH]; simpl; intros Hl acc Hacc.
  - assumption.
  - apply andb_prop in Hl as [He Hl]. rewrite eqb_zero_spec in He.
    apply IH; [assumption|]. apply add_zero; assumption.
Qed.

Lemma t_fold_zn (l : list (float * Pose float)) :
  all_weights_zero l = true ->
  forall acc : Vector3d float,
  sf_zn (Prim2SF (vx acc)) = true -> sf_zn (Prim2SF (vy acc)) = true ->
  sf_zn (Prim2SF (vz acc)) = true ->
  let r := fold_left (fun a e => vadd a (vscale (fst e) (t_ (snd e)))) l acc in
  sf_zn (Prim2SF (vx r)) = true /\ sf_zn (Prim2SF (vy r)) = true /\
  sf_zn (Prim2SF (vz r)) = true.
Proof.
  induction l as [|e l IH]; simpl; intros Hl acc Hx Hy Hz.
  - auto.
  - apply andb_prop in Hl as [He Hl]. rewrite eqb_zero_spec in He.
    apply IH; [assumption| | |]; simpl;
      apply add_zn; try assumption; apply mul_zero_zn; assumption.
Qed.

Lemma q_fold_zn (l : list (float * Pose float)) :
  all_weights_zero l = true ->
  forall x y z w : float,
  sf_zn (Prim2SF x) = true -> sf_zn (Prim2SF y) = true ->
  sf_zn (Prim2SF z) = true -> sf_zn (Prim2SF w) = true ->
  exists x' y' z' w',
    fold_left
      (fun acc e =>
         let '(x, y, z, w) := acc in
         (s_add x (s_mul (fst e) (qx (q_ (snd e)))),
          s_add y (s_mul (fst e) (qy (q_ (snd e)))),
          s_add z (s_mul (fst e) (qz (q_ (snd e)))),
          s_add w (s_mul (fst e) (qw (q_ (snd e))))))
      l (x, y, z, w) = (x', y', z', w') /\
    sf_zn (Prim2SF x') = true /\ sf_zn (Prim2SF y') = true /\
    sf_zn (Prim2SF z') = true /\ sf_zn (Prim2SF w') = true.
Proof.
  induction l as [|e l IH]; simpl; intros Hl x y z w Hx Hy Hz Hw.
  - exists x, y, z, w. auto.
  - apply andb_prop in Hl as [He Hl]. rewrite eqb_zero_spec in He.
    apply IH; [assumption| | | |];
      apply add_zn; try assumption; apply mul_zero_zn; assumption.
Qed.

Lemma weight_total_zero (l : list (float * Pose float)) :
  all_weights_zero l = true -> sf_zero (Prim2SF (weight_total l)) = true.
Proof.
  intros Hl. unfold weight_total. apply weight_fold_zero; auto.
Qed.

Lemma t_sum_zn (l : list (float * Pose float)) :
  all_weights_zero l = true ->
  sf_zn (Prim2SF (vx (t_sum l))) = true /\
  sf_zn (Prim2SF (vy (t_sum l))) = true /\
  sf_zn (Prim2SF (vz (t_sum l))) = true.
Proof.
  intros Hl. unfold t_sum. apply t_fold_zn; auto.
Qed.

Lemma q_sum_zn (l : list (float * Pose float)) :
  all_weights_zero l = true ->
  exists x y z w,
    q_sum l = (x, y, z, w) /\
    sf_zn (Prim2SF x) = true /\ sf_zn (Prim2SF y) = true /\
    sf_zn (Prim2SF z) = true /\ sf_zn (Prim2SF w) = true.
Proof.
  intros Hl. unfold q_sum. apply q_fold_zn; auto.
Qed.

(** Total weight zero: a NaN in the rotation, no finite translation. *)
Lemma mean_zero_total (l : list (float * Pose float)) (pm : Pose float) :
  zero_total l = true ->
  q_has_nan (q_ (computeMeanPose l pm)) = true /\
  v_non_finite (t_ (computeMeanPose l pm)) = true.
Proof.
  unfold zero_total. rewrite eqb_zero_spec. intros Hz.
  unfold computeMeanPose.
  destruct (q_sum l) as [[[x y] z] w]. simpl.
  split.
  - apply normalize_non_finite; simpl; apply div_zero_ni; assumption.
  - unfold v_non_finite; simpl. rewrite !non_finite_spec.
    rewrite !div_zero_ni by assumption. reflexivity.
Qed.

(** Every weight zero: NaN in all seven components. *)
Lemma mean_all_zero (l : list (float * Pose float)) (pm : Pose float) :
  all_weights_zero l = true ->
  q_all_nan (q_ (computeMeanPose l pm)) = true /\
  v_all_nan (t_ (computeMeanPose l pm)) = true.
Proof.
  intros Hl.
  pose proof (weight_total_zero l Hl) as Hwt.
  destruct (t_sum_zn l Hl) as (Tx & Ty & Tz).
  destruct (q_sum_zn l Hl) as (x & y & z & w & E & Hx & Hy & Hz & Hw).
  unfold computeMeanPose.
  rewrite E. simpl.
  split.
  - set (q := Quat _ _ _ _).
    destruct (normalize_keeps_nan q) as (Kw & Kx & Ky & Kz).
    unfold q_all_nan. rewrite !is_nan_spec.
    rewrite Kw, Kx, Ky, Kz; try reflexivity; subst q; simpl;
      apply div_zn_zero_nan; assumption.
  - unfold v_all_nan; simpl. rewrite !is_nan_spec.
    rewrite !div_zn_zero_nan; try reflexivity; assumption.
Qed.

(** *** Properties of the specification *)

(** C1. The odometry constructor stores an orientation of norm 2 as it is:
    the stored rotation is (w, x, y, z) = (2, 0, 0, 0), of norm 2, not 1
    within the tolerance.  The 3x3-matrix constructor does no better on
    twice the identity matrix.  The quaternion constructor and the 4x4
    constructor, which call [normalize()], store a rotation of norm 1 on
    the same rotations. *)
Theorem odometry_rotation_not_normalized :
  q_ (Pose_Odometry odom_twice_identity) = Quat 2 0 0 0 /\
  norm (q_ (Pose_Odometry odom_twice_identity)) = 2 /\
  unit_norm (q_ (Pose_Odometry odom_twice_identity)) = false /\
  unit_norm (q_ (Pose_Matrix3d twice_identity3 Vector3d_Zero 0)) = false /\
  unit_norm (q_ (Pose_Quaterniond (Quat 2 0 0 0) Vector3d_Zero 0)) = true /\
  unit_norm (q_ (Pose_Matrix4d twice_identity4 0)) = true.
Proof. repeat split; vm_compute; reflexivity. Qed.

(** C2, as stated, fails on the empty collection: the pose written has NaN
    components. *)
Lemma empty_mean_has_nan : ~ degenerate_is_defined [] Pose_default.
Proof.
  intros Hd. specialize (Hd eq_refl). vm_compute in Hd. discriminate.
Qed.

(** C2, as the code has it. [computeMeanPose] returns a pose on every
    input, with no failure and no fallback.  When the total weight is zero,
    which the empty collection has, the pose written has a NaN rotation
    component and translation components that are each NaN or infinite.
    When moreover every weight is zero, as in the empty collection, all four
    rotation components and all three translation components are NaN. *)
Theorem computeMeanPose_zero_total (pose_array : list (float * Pose float))
    (pose_mean : Pose float) :
  zero_total pose_array = true ->
  has_nan (computeMeanPose pose_array pose_mean) = true /\
  q_has_nan (q_ (computeMeanPose pose_array pose_mean)) = true /\
  v_non_finite (t_ (computeMeanPose pose_array pose_mean)) = true /\
  (all_weights_zero pose_array = true ->
   q_all_nan (q_ (computeMeanPose pose_array pose_mean)) = true /\
   v_all_nan (t_ (computeMeanPose pose_array pose_mean)) = true).
Proof.
  intros Hz.
  destruct (mean_zero_total pose_array pose_mean Hz) as [Hq Ht].
  split; [|split; [exact Hq|split; [exact Ht|]]].
  - unfold has_nan. rewrite Hq. reflexivity.
  - apply mean_all_zero.
Qed.

Lemma computeMeanPose_zero_total_witness :
  zero_total [(0, example_pose_2)] = true /\
  has_nan (computeMeanPose [(0, example_pose_2)] Pose_default) = true.
Proof.
  split; [reflexivity|].
  exact (proj1 (computeMeanPose_zero_total [(0, example_pose_2)] Pose_default
                  eq_refl)).
Defined.

(** C4, as stated, fails: composing the odometry pose of orientation
    (2, 0, 0, 0) with the identity pose gives the rotation (1, 0, 0, 0),
    while the product of the two rotations is (2, 0, 0, 0). *)
Lemma rotation_is_not_product :
  ~ rotation_is_product (Pose_Odometry odom_twice_identity) Pose_default.
Proof.
  unfold rotation_is_product. intros E.
  apply (f_equal qw) in E. vm_compute in E.
  revert E. apply float_neq; reflexivity.
Qed.

(** Associativity fails off unit norm: with [a = b] the odometry
    pose of orientation (w, x, y, z) = (0, 2, 0, 0) and [c] the translation
    by (0, 1, 0), one bracketing has translation (0, 1, 0), the other
    (0, 49, 0). *)
Lemma assoc_fails_off_unit_norm :
  ~ assoc_within_tol (Pose_Odometry odom_twice_x) (Pose_Odometry odom_twice_x)
      (Pose_Quaterniond Quaterniond_Identity (Vec3 0 1 0) 0).
Proof.
  unfold assoc_within_tol. intros [_ Ht]. vm_compute in Ht. discriminate.
Qed.


(** The cache diverges on the 4x4 constructor: built from twice the
    identity matrix, the pose caches the bottom row (0 0 0 2) and the
    rotation block 2 I, next to the rotation (1, 0, 0, 0). *)
Lemma cache_diverges_on_Matrix4d :
  ~ cache_consistent (Pose_Matrix4d twice_identity4 0).
Proof.
  intros (_ & _ & Hb).
  apply (f_equal snd) in Hb. vm_compute in Hb.
  revert Hb. apply float_neq; reflexivity.
Qed.

(** The same on the 3x3 constructor: the cached block is 2 I, the rotation
    matrix of the stored quaternion is I. *)
Lemma cache_diverges_on_Matrix3d :
  ~ cache_consistent (Pose_Matrix3d twice_identity3 Vector3d_Zero 0).
Proof.
  intros (Hr & _).
  apply (f_equal (@m00 float)) in Hr. vm_compute in Hr.
  revert Hr. apply float_neq; reflexivity.
Qed.

(** The default pose has a consistent cache. *)
Lemma Pose_default_cache : cache_consistent (Pose_default : Pose float).
Proof. repeat split. Qed.

(** The specification's averaging example, as the program computes it. *)
Lemma mean_example_binary64 :
  q_ (computeMeanPose [(1, example_pose_0); (1, example_pose_2)] Pose_default)
  = Quaterniond_Identity /\
  t_ (computeMeanPose [(1, example_pose_0); (1, example_pose_2)] Pose_default)
  = Vec3 1 0 0.
Proof. split; vm_compute; reflexivity. Qed.

(** The inverse law on a sample pose, within the tolerance. *)
Lemma inverse_law_sample :
  qapprox (q_ (poseTransform quarter_turn_x (inverse quarter_turn_x)))
          Quaterniond_Identity = true /\
  vapprox (t_ (poseTransform quarter_turn_x (inverse quarter_turn_x)))
          Vector3d_Zero = true.
Proof. split; vm_compute; reflexivity. Qed.

(** A quaternion of norm zero has no direction: [normalize] leaves it, and
    the normalizing constructor stores it as it is. *)
Lemma zero_rotation_stays_zero :
  q_ (Pose_Quaterniond (Quat 0 0 0 0) Vector3d_Zero 0) = Quat 0 0 0 0 /\
  unit_norm (q_ (Pose_Quaterniond (Quat 0 0 0 0) Vector3d_Zero 0)) = false.
Proof. split; vm_compute; reflexivity. Qed.

(** Associativity also fails on a pose the normalizing constructor built
    from the zero quaternion, composed with a half turn about x. *)
Lemma assoc_fails_on_zero_rotation :
  ~ assoc_within_tol (Pose_Quaterniond (Quat 0 0 0 0) Vector3d_Zero 0)
      (Pose_Quaterniond (Quat 0 1 0 0) Vector3d_Zero 0)
      (Pose_Quaterniond Quaterniond_Identity (Vec3 0 1 0) 0).
Proof.
  unfold assoc_within_tol. intros [_ Ht]. vm_compute in Ht. discriminate.
Qed.

(** On poses of unit rotation the stored rotation of a composition and the
    product agree within the tolerance, and can differ in the last digits:
    the constructor normalizes the rounded product. *)
Lemma rotation_product_rounding :
  qapprox (q_ (poseTransform quarter_turn_x quarter_turn_x))
          (qmul (q_ quarter_turn_x) (q_ quarter_turn_x)) = true /\
  ~ rotation_is_product quarter_turn_x quarter_turn_x.
Proof.
  split; [vm_compute; reflexivity|].
  unfold rotation_is_product. intros E.
  apply (f_equal (@qx float)) in E. vm_compute in E.
  revert E. apply float_neq; reflexivity.
Qed.

(** Associativity on three sample poses of unit rotation: the two
    bracketings agree within the tolerance, and differ in the last digits. *)
Lemma assoc_sample :
  assoc_within_tol quarter_turn_x sample_b sample_c /\
  t_ (poseTransform (poseTransform quarter_turn_x sample_b) sample_c)
  <> t_ (poseTransform quarter_turn_x (poseTransform sample_b sample_c)).
Proof.
  split; [split; vm_compute; reflexivity|].
  intros E. apply (f_equal (@vx float)) in E. vm_compute in E.
  revert E. apply float_neq; reflexivity.
Qed.

End Binary64Facts.

(** ** The pose algebra in exact arithmetic *)

Module ExactFacts.
Import Exact.
Local Open Scope R_scope.

Ltac to_R :=
  cbv [squaredNorm normalize qmul qrot conjugate qinverse cross vadd vneg
       vscale vdiv norm qw qx qy qz vx vy vz Vector3d_Zero Quaterniond_Identity
       s_add s_sub s_mul s_div s_neg s_sqrt s_gtb s_zero s_one s_two s_half
       Scalar_R] in *.

Lemma Quat_eq (w x y z w' x' y' z' : R) :
  w = w' -> x = x' -> y = y' -> z = z' -> Quat w x y z = Quat w' x' y' z'.
Proof. intros; subst; reflexivity. Qed.

Lemma Vec3_eq (x y z x' y' z' : R) :
  x = x' -> y = y' -> z = z' -> Vec3 x y z = Vec3 x' y' z'.
Proof. intros; subst; reflexivity. Qed.

Ltac comps := first [apply Quat_eq | apply Vec3_eq].

Lemma gtb_true (a b : R) : b < a -> s_gtb a b = true.
Proof.
  intros Hlt. simpl. destruct (Rlt_dec b a); [reflexivity|contradiction].
Qed.

Lemma gtb_false (a b : R) : a <= b -> s_gtb a b = false.
Proof.
  intros Hle. simpl. destruct (Rlt_dec b a); [lra|reflexivity].
Qed.

Lemma squaredNorm_nonneg (q : Quaterniond R) : 0 <= squaredNorm q.
Proof. destruct q as [w x y z]. to_R. nra. Qed.

Lemma norm_one_squaredNorm (q : Quaterniond R) :
  norm q = 1 <-> squaredNorm q = 1.
Proof.
  change (sqrt (squaredNorm q) = 1 <-> squaredNorm q = 1).
  split; intros Hn.
  - rewrite <- (sqrt_sqrt (squaredNorm q)) by apply squaredNorm_nonneg.
    rewrite Hn. ring.
  - rewrite Hn. apply sqrt_1.
Qed.

(** [normalize] leaves a unit quaternion as it is. *)
Lemma normalize_unit (q : Quaterniond R) :
  squaredNorm q = 1 -> normalize q = q.
Proof.
  intros Hq. unfold normalize. rewrite Hq.
  rewrite gtb_true by (simpl; lra).
  change (s_sqrt 1) with (sqrt 1). rewrite sqrt_1.
  destruct q as [w x y z]. to_R. comps; field.
Qed.

(** [normalize] makes any quaternion of non-zero norm a unit one. *)
Lemma normalize_squaredNorm (q : Quaterniond R) :
  squaredNorm q <> 0 -> squaredNorm (normalize q) = 1.
Proof.
  intros Hq.
  pose proof (squaredNorm_nonneg q) as Hz.
  unfold normalize.
  rewrite gtb_true by (change (0 < squaredNorm q); lra).
  change (s_sqrt (squaredNorm q)) with (sqrt (squaredNorm q)).
  assert (Hs : sqrt (squaredNorm q) * sqrt (squaredNorm q) = squaredNorm q)
    by (apply sqrt_sqrt; assumption).
  assert (Hp : 0 < sqrt (squaredNorm q)) by (apply sqrt_lt_R0; lra).
  set (s := sqrt (squaredNorm q)) in *.
  destruct q as [w x y z]. to_R.
  replace (x / s * (x / s) + y / s * (y / s)
           + (z / s * (z / s) + w / s * (w / s)))
    with ((x * x + y * y + (z * z + w * w)) / (s * s)) by (field; lra).
  rewrite Hs. field. exact Hq.
Qed.

(** The normalizing constructor establishes the class invariant on every
    quaternion that has a direction. *)
Lemma Pose_Quaterniond_unit (q : Quaterniond R) (t : Vector3d R) (td : R) :
  squaredNorm q <> 0 -> norm (q_ (Pose_Quaterniond q t td)) = 1.
Proof.
  intros Hq. apply norm_one_squaredNorm. simpl.
  apply normalize_squaredNorm. exact Hq.
Qed.

Lemma Pose_Matrix4d_unit (T : Matrix4d R) (td : R) :
  squaredNorm (Quaterniond_of_matrix (topLeftCorner T)) <> 0 ->
  norm (q_ (Pose_Matrix4d T td)) = 1.
Proof.
  intros Hq. apply norm_one_squaredNorm. simpl.
  apply normalize_squaredNorm. exact Hq.
Qed.

Lemma squaredNorm_qmul (a b : Quaterniond R) :
  squaredNorm (qmul a b) = squaredNorm a * squaredNorm b.
Proof. destruct a, b. to_R. ring. Qed.



Lemma squaredNorm_conjugate (q : Quaterniond R) :
  squaredNorm (conjugate q) = squaredNorm q.
Proof. destruct q. to_R. ring. Qed.

Lemma qinverse_unit (q : Quaterniond R) :
  squaredNorm q = 1 -> qinverse q = conjugate q.
Proof.
  intros Hq. unfold qinverse. rewrite Hq.
  rewrite gtb_true by (simpl; lra).
  destruct q as [w x y z]. to_R. comps; field.
Qed.



Lemma qrot_vadd (q : Quaterniond R) (u v : Vector3d R) :
  qrot q (vadd u v) = vadd (qrot q u) (qrot q v).
Proof. destruct q, u, v. to_R. comps; ring. Qed.

Lemma qrot_vneg (q : Quaterniond R) (v : Vector3d R) :
  qrot q (vneg v) = vneg (qrot q v).
Proof. destruct q, v. to_R. comps; ring. Qed.



(** A unit quaternion undoes its conjugate. *)
Lemma qrot_conjugate_cancel (q : Quaterniond R) (v : Vector3d R) :
  squaredNorm q = 1 -> qrot q (qrot (conjugate q) v) = v.
Proof.
  destruct q as [w x y z], v as [a b c]. to_R. intros Hq.
  comps; nsatz.
Qed.

(** On unit quaternions, applying a product is applying one after the
    other. *)
Lemma qrot_qmul (p q : Quaterniond R) (v : Vector3d R) :
  squaredNorm p = 1 -> squaredNorm q = 1 ->
  qrot (qmul p q) v = qrot p (qrot q v).
Proof.
  destruct p as [w x y z], q as [w' x' y' z'], v as [a b c]. to_R.
  intros Hp Hq.
  comps; nsatz.
Qed.

Lemma normalize_identity :
  normalize (Quat 1 0 0 0 : Quaterniond R) = Quat 1 0 0 0.
Proof. apply normalize_unit. to_R. ring. Qed.

(** On a unit quaternion the normalizing constructor builds [pose_of]. *)
Lemma pose_of_constructed (q : Quaterniond R) (t : Vector3d R) :
  squaredNorm q = 1 -> Pose_Quaterniond q t 0 = pose_of q t.
Proof.
  intros Hq. unfold Pose_Quaterniond, pose_of.
  rewrite (normalize_unit _ Hq). reflexivity.
Qed.

(** The norms of the sample poses. *)
Lemma norm_half_turn_x : norm (q_ half_turn_x) = 1.
Proof. apply norm_one_squaredNorm. to_R. simpl. ring. Qed.

Lemma norm_half_turn_y : norm (q_ half_turn_y) = 1.
Proof. apply norm_one_squaredNorm. to_R. simpl. ring. Qed.



(** *** Properties of the specification *)







End ExactFacts.

(** * Further properties of the code *)

(** ** Caches of the results, in any arithmetic *)

Section GenericResults.
Context {A : Type} `{Scalar A}.

(** A consistent cache is the one built from the rotation and the
    translation. *)
Lemma cache_consistent_T (p : Pose A) :
  cache_consistent p -> T_ p = cache_of (q_ p) (t_ p).
Proof.
  unfold cache_consistent, cache_of. intros (Hr & Ht & Hb).
  destruct (T_ p); simpl in *.
  rewrite <- Hr, <- Ht. simpl.
  inversion Hb. reflexivity.
Qed.

Lemma cache_of_consistent (q : Quaterniond A) (t : Vector3d A) (td : A) :
  cache_consistent (mkPose q t (cache_of q t) td).
Proof.
  unfold cache_consistent, cache_of; simpl.
  destruct (toRotationMatrix q), t; repeat split.
Qed.

(** X1. Whatever the operands, even with caches that disagree with their
    fields, [poseTransform], [operator*], [inverse] and [computeMeanPose]
    return a pose whose cache is consistent with its rotation and
    translation. *)
Theorem results_cache (a b : Pose A) (l : list (A * Pose A)) (pm : Pose A) :
  cache_consistent (poseTransform a b) /\
  cache_consistent (Pose_mul a b) /\
  cache_consistent (inverse a) /\
  cache_consistent (computeMeanPose l pm).
Proof.
  repeat split; try apply Pose_Quaterniond_cache.
  all: unfold computeMeanPose; destruct (q_sum l) as [[[x y] z] w];
    apply Pose_Quaterniond_cache.
Qed.

End GenericResults.

(** ** The pose algebra on unit rotations, in exact arithmetic *)

Module GeometryFacts.
Import Exact ExactFacts Geometry.
Local Open Scope R_scope.

Lemma pose_of_cache (q : Quaterniond R) (t : Vector3d R) :
  cache_consistent (pose_of q t).
Proof. exact (cache_of_consistent q t 0). Qed.

Lemma qmul_identity_l (q : Quaterniond R) : qmul Quaterniond_Identity q = q.
Proof. destruct q. to_R. comps; ring. Qed.

Lemma qmul_identity_r (q : Quaterniond R) : qmul q Quaterniond_Identity = q.
Proof. destruct q. to_R. comps; ring. Qed.

Lemma qrot_identity (v : Vector3d R) : qrot Quaterniond_Identity v = v.
Proof. destruct v. to_R. comps; ring. Qed.

Lemma qrot_zero (q : Quaterniond R) : qrot q Vector3d_Zero = Vector3d_Zero.
Proof. destruct q. to_R. comps; ring. Qed.

Lemma vadd_zero_r (v : Vector3d R) : vadd v Vector3d_Zero = v.
Proof. destruct v. to_R. comps; ring. Qed.

Lemma vadd_zero_l (v : Vector3d R) : vadd Vector3d_Zero v = v.
Proof. destruct v. to_R. comps; ring. Qed.

Lemma conjugate_involutive (q : Quaterniond R) : conjugate (conjugate q) = q.
Proof. destruct q. to_R. comps; ring. Qed.

Lemma conjugate_qmul (a b : Quaterniond R) :
  conjugate (qmul a b) = qmul (conjugate b) (conjugate a).
Proof. destruct a, b. to_R. comps; ring. Qed.

Lemma qmul_conjugate_l (q : Quaterniond R) :
  qmul (conjugate q) q = Quat (squaredNorm q) 0 0 0.
Proof. destruct q. to_R. comps; ring. Qed.

Lemma qrot_conjugate_cancel_l (q : Quaterniond R) (v : Vector3d R) :
  squaredNorm q = 1 -> qrot (conjugate q) (qrot q v) = v.
Proof.
  intros Hq. rewrite <- (conjugate_involutive q) at 2.
  apply qrot_conjugate_cancel. rewrite squaredNorm_conjugate. exact Hq.
Qed.

Lemma vneg_vneg (v : Vector3d R) : vneg (vneg v) = v.
Proof. destruct v. to_R. comps; ring. Qed.

Lemma vadd_vneg_r (v : Vector3d R) : vadd v (vneg v) = Vector3d_Zero.
Proof. destruct v. to_R. comps; ring. Qed.

Lemma vneg_vadd (u v : Vector3d R) :
  vneg (vadd u v) = vadd (vneg v) (vneg u).
Proof. destruct u, v. to_R. comps; ring. Qed.

(** The fields of the inverse of a pose of unit rotation. *)
Lemma inverse_fields (p : Pose R) :
  squaredNorm (q_ p) = 1 ->
  q_ (inverse p) = conjugate (q_ p) /\
  t_ (inverse p) = vneg (qrot (conjugate (q_ p)) (t_ p)).
Proof.
  intros Hn. unfold inverse. cbn [q_ t_ Pose_Quaterniond].
  rewrite (qinverse_unit _ Hn).
  rewrite (normalize_unit (conjugate (q_ p)))
    by (rewrite squaredNorm_conjugate; exact Hn).
  split; reflexivity.
Qed.

(** X2. A pose with a rotation of norm 1 and a consistent cache is the pose
    the quaternion constructor builds from its own rotation, translation and
    time offset: constructing again changes nothing. *)
Theorem reconstruct (p : Pose R) :
  norm (q_ p) = 1 -> cache_consistent p ->
  Pose_Quaterniond (q_ p) (t_ p) (td_ p) = p.
Proof.
  intros Hn Hc. apply norm_one_squaredNorm in Hn.
  unfold Pose_Quaterniond. rewrite (normalize_unit _ Hn).
  fold (cache_of (q_ p) (t_ p)). rewrite <- (cache_consistent_T p Hc).
  destruct p; reflexivity.
Qed.

Lemma reconstruct_witness :
  norm (q_ half_turn_x) = 1 /\ cache_consistent half_turn_x /\
  Pose_Quaterniond (q_ half_turn_x) (t_ half_turn_x) (td_ half_turn_x)
  = half_turn_x.
Proof.
  split; [exact norm_half_turn_x|].
  split; [exact (pose_of_cache _ _)|].
  exact (reconstruct half_turn_x norm_half_turn_x (pose_of_cache _ _)).
Defined.

(** X3. The default pose is a two-sided identity of [poseTransform] on
    every pose with a rotation of norm 1, a consistent cache and time
    offset 0: composing with it on either side gives the pose back, cache
    and time offset included. *)
Theorem identity_composition (p : Pose R) :
  norm (q_ p) = 1 -> cache_consistent p -> td_ p = 0 ->
  poseTransform Pose_default p = p /\ poseTransform p Pose_default = p.
Proof.
  intros Hn Hc Htd.
  pose proof (reconstruct p Hn Hc) as Hr. rewrite Htd in Hr.
  unfold poseTransform. cbn [q_ t_ Pose_default].
  rewrite qmul_identity_l, qmul_identity_r, qrot_identity, qrot_zero,
    vadd_zero_r, vadd_zero_l.
  split; exact Hr.
Qed.

Lemma identity_composition_witness :
  norm (q_ half_turn_x) = 1 /\ cache_consistent half_turn_x /\
  td_ half_turn_x = 0 /\
  poseTransform Pose_default half_turn_x = half_turn_x.
Proof.
  split; [exact norm_half_turn_x|].
  split; [exact (pose_of_cache _ _)|].
  split; [reflexivity|].
  exact (proj1 (identity_composition half_turn_x norm_half_turn_x
                  (pose_of_cache _ _) eq_refl)).
Defined.

(** X4. For a pose with a rotation of norm 1, the inverse is also a left
    inverse, [poseTransform (inverse p) p] has the identity rotation and the
    zero translation, and inverting twice gives back the rotation and the
    translation of the pose. *)
Theorem inverse_left_involutive (p : Pose R) :
  norm (q_ p) = 1 ->
  q_ (poseTransform (inverse p) p) = Quaterniond_Identity /\
  t_ (poseTransform (inverse p) p) = Vector3d_Zero /\
  q_ (inverse (inverse p)) = q_ p /\
  t_ (inverse (inverse p)) = t_ p.
Proof.
  intros Hn. apply norm_one_squaredNorm in Hn.
  destruct (inverse_fields p Hn) as [Hq Ht].
  assert (Hc : squaredNorm (q_ (inverse p)) = 1)
    by (rewrite Hq, squaredNorm_conjugate; exact Hn).
  destruct (inverse_fields (inverse p) Hc) as [Hq2 Ht2].
  split; [|split; [|split]].
  - unfold poseTransform. cbn [q_ Pose_Quaterniond].
    rewrite Hq, qmul_conjugate_l, Hn. apply normalize_identity.
  - unfold poseTransform. cbn [t_ Pose_Quaterniond].
    rewrite Hq, Ht. apply vadd_vneg_r.
  - rewrite Hq2, Hq. apply conjugate_involutive.
  - rewrite Ht2, Hq, Ht, conjugate_involutive, qrot_vneg, vneg_vneg.
    apply qrot_conjugate_cancel. exact Hn.
Qed.

Lemma inverse_left_involutive_witness :
  norm (q_ half_turn_x) = 1 /\
  q_ (inverse (inverse half_turn_x)) = q_ half_turn_x.
Proof.
  split; [exact norm_half_turn_x|].
  exact (proj1 (proj2 (proj2
           (inverse_left_involutive half_turn_x norm_half_turn_x)))).
Defined.

(** X5. For poses a and b with rotations of norm 1, the inverse of the
    composition is the composition of the inverses in the opposite order,
    as whole poses. *)
Theorem inverse_of_composition (a b : Pose R) :
  norm (q_ a) = 1 -> norm (q_ b) = 1 ->
  inverse (poseTransform a b) = poseTransform (inverse b) (inverse a).
Proof.
  intros Ha Hb. apply norm_one_squaredNorm in Ha, Hb.
  assert (Hab : squaredNorm (qmul (q_ a) (q_ b)) = 1)
    by (rewrite squaredNorm_qmul, Ha, Hb; ring).
  destruct (inverse_fields a Ha) as [Hqa Hta].
  destruct (inverse_fields b Hb) as [Hqb Htb].
  unfold poseTransform at 2. rewrite Hqa, Hqb, Hta, Htb.
  unfold inverse, poseTransform. cbn [q_ t_ Pose_Quaterniond].
  rewrite (normalize_unit _ Hab), (qinverse_unit _ Hab).
  rewrite conjugate_qmul.
  rewrite qrot_qmul by (rewrite squaredNorm_conjugate; assumption).
  rewrite !qrot_vadd, !qrot_vneg, vneg_vadd.
  rewrite (qrot_conjugate_cancel_l (q_ a)) by exact Ha.
  reflexivity.
Qed.

Lemma inverse_of_composition_witness :
  norm (q_ half_turn_x) = 1 /\ norm (q_ half_turn_y) = 1 /\
  inverse (poseTransform half_turn_x half_turn_y)
  = poseTransform (inverse half_turn_y) (inverse half_turn_x).
Proof.
  split; [exact norm_half_turn_x|].
  split; [exact norm_half_turn_y|].
  exact (inverse_of_composition half_turn_x half_turn_y
           norm_half_turn_x norm_half_turn_y).
Defined.

Lemma squaredNorm_qinverse (q : Quaterniond R) :
  squaredNorm q <> 0 -> squaredNorm (qinverse q) <> 0.
Proof.
  intros Hq. pose proof (squaredNorm_nonneg q) as Hz.
  unfold qinverse.
  rewrite gtb_true by (change (0 < squaredNorm q); lra).
  set (n := squaredNorm q) in *.
  assert (E : squaredNorm
                (Quat (s_div (qw (conjugate q)) n) (s_div (qx (conjugate q)) n)
                      (s_div (qy (conjugate q)) n) (s_div (qz (conjugate q)) n))
              = squaredNorm q / (n * n))
    by (destruct q as [w x y z]; to_R; field; exact Hq).
  rewrite E. fold n. intros H0.
  assert (E1 : n / (n * n) * n = 1) by (field; exact Hq).
  rewrite H0 in E1. lra.
Qed.

(** X6. The operations restore the class invariant: whenever the rotations
    of the operands are not the zero quaternion, whatever their norm, the
    rotations of [poseTransform a b], [a * b] and [inverse a] have norm
    1. *)
Theorem unit_norm_restored (a b : Pose R) :
  squaredNorm (q_ a) <> 0 -> squaredNorm (q_ b) <> 0 ->
  norm (q_ (poseTransform a b)) = 1 /\
  norm (q_ (Pose_mul a b)) = 1 /\
  norm (q_ (inverse a)) = 1.
Proof.
  intros Ha Hb.
  assert (Hab : squaredNorm (qmul (q_ a) (q_ b)) <> 0).
  { rewrite squaredNorm_qmul. intros H0.
    apply Rmult_integral in H0. destruct H0; contradiction. }
  repeat split; apply Pose_Quaterniond_unit; try exact Hab.
  apply squaredNorm_qinverse. exact Ha.
Qed.

Lemma squaredNorm_half_turns :
  squaredNorm (q_ half_turn_x) <> 0 /\ squaredNorm (q_ half_turn_y) <> 0.
Proof.
  rewrite (proj1 (norm_one_squaredNorm _) norm_half_turn_x).
  rewrite (proj1 (norm_one_squaredNorm _) norm_half_turn_y).
  split; lra.
Qed.

Lemma unit_norm_restored_witness :
  squaredNorm (q_ half_turn_x) <> 0 /\ squaredNorm (q_ half_turn_y) <> 0 /\
  norm (q_ (poseTransform half_turn_x half_turn_y)) = 1.
Proof.
  split; [exact (proj1 squaredNorm_half_turns)|].
  split; [exact (proj2 squaredNorm_half_turns)|].
  exact (proj1 (unit_norm_restored half_turn_x half_turn_y
                  (proj1 squaredNorm_half_turns)
                  (proj2 squaredNorm_half_turns))).
Defined.

(** X7. Composition with a pose of unit rotation is a rigid motion: the
    translations of [poseTransform a b1] and [poseTransform a b2] are as far
    apart as the translations of b1 and b2. *)
Theorem rigid_motion (a b1 b2 : Pose R) :
  norm (q_ a) = 1 ->
  sq_dist (t_ (poseTransform a b1)) (t_ (poseTransform a b2))
  = sq_dist (t_ b1) (t_ b2).
Proof.
  intros Ha. apply norm_one_squaredNorm in Ha.
  unfold poseTransform. cbn [t_ Pose_Quaterniond].
  destruct (q_ a) as [w x y z], (t_ a) as [a1 a2 a3],
    (t_ b1) as [u1 u2 u3], (t_ b2) as [v1 v2 v3].
  unfold sq_dist. to_R. nsatz.
Qed.

Lemma rigid_motion_witness :
  norm (q_ half_turn_x) = 1 /\
  sq_dist (t_ (poseTransform half_turn_x half_turn_y))
          (t_ (poseTransform half_turn_x shift_x2))
  = sq_dist (t_ half_turn_y) (t_ shift_x2).
Proof.
  split; [exact norm_half_turn_x|].
  exact (rigid_motion half_turn_x half_turn_y shift_x2 norm_half_turn_x).
Defined.

Lemma Mat4_eq
    (a00 a01 a02 a03 a10 a11 a12 a13 a20 a21 a22 a23 a30 a31 a32 a33
     b00 b01 b02 b03 b10 b11 b12 b13 b20 b21 b22 b23 b30 b31 b32 b33 : R) :
  a00 = b00 -> a01 = b01 -> a02 = b02 -> a03 = b03 ->
  a10 = b10 -> a11 = b11 -> a12 = b12 -> a13 = b13 ->
  a20 = b20 -> a21 = b21 -> a22 = b22 -> a23 = b23 ->
  a30 = b30 -> a31 = b31 -> a32 = b32 -> a33 = b33 ->
  Mat4 a00 a01 a02 a03 a10 a11 a12 a13 a20 a21 a22 a23 a30 a31 a32 a33
  = Mat4 b00 b01 b02 b03 b10 b11 b12 b13 b20 b21 b22 b23 b30 b31 b32 b33.
Proof. intros; subst; reflexivity. Qed.

Ltac to_M :=
  cbv [cache_of Matrix4d_mul transform_point set_topRightCorner
       set_topLeftCorner Matrix4d_Identity toRotationMatrix
       h00 h01 h02 h03 h10 h11 h12 h13 h20 h21 h22 h23 h30 h31 h32 h33
       m00 m01 m02 m10 m11 m12 m20 m21 m22] in *; to_R.

(** X8. For a pose with a consistent cache, applying the cached 4x4
    transform to a point gives the point rotated by the stored quaternion
    and moved by the stored translation, whatever the norm of the
    quaternion. *)
Theorem cache_transforms_points (p : Pose R) (v : Vector3d R) :
  cache_consistent p ->
  transform_point (T_ p) v = vadd (qrot (q_ p) v) (t_ p).
Proof.
  intros Hc. rewrite (cache_consistent_T p Hc).
  destruct (q_ p) as [w x y z], (t_ p) as [a b c], v as [v1 v2 v3].
  to_M. comps; ring.
Qed.

Lemma cache_transforms_points_witness :
  cache_consistent half_turn_x /\
  transform_point (T_ half_turn_x) (Vec3 1 0 0)
  = vadd (qrot (q_ half_turn_x) (Vec3 1 0 0)) (t_ half_turn_x).
Proof.
  split; [exact (pose_of_cache _ _)|].
  exact (cache_transforms_points half_turn_x (Vec3 1 0 0)
           (pose_of_cache _ _)).
Defined.

Lemma cache_of_product (p q : Quaterniond R) (s t : Vector3d R) :
  squaredNorm p = 1 -> squaredNorm q = 1 ->
  cache_of (qmul p q) (vadd (qrot p t) s)
  = Matrix4d_mul (cache_of p s) (cache_of q t).
Proof.
  destruct p as [w x y z], q as [w' x' y' z'], s as [s1 s2 s3],
    t as [t1 t2 t3].
  intros Hp Hq. to_M. apply Mat4_eq; nsatz.
Qed.

(** X9. For poses a and b with rotations of norm 1 and consistent caches,
    the cache of [poseTransform a b] is the matrix product of the cache of
    a and the cache of b. *)
Theorem cache_of_composition (a b : Pose R) :
  norm (q_ a) = 1 -> norm (q_ b) = 1 ->
  cache_consistent a -> cache_consistent b ->
  T_ (poseTransform a b) = Matrix4d_mul (T_ a) (T_ b).
Proof.
  intros Ha Hb Ca Cb. apply norm_one_squaredNorm in Ha, Hb.
  assert (Hab : squaredNorm (qmul (q_ a) (q_ b)) = 1)
    by (rewrite squaredNorm_qmul, Ha, Hb; ring).
  rewrite (cache_consistent_T a Ca), (cache_consistent_T b Cb).
  unfold poseTransform, Pose_Quaterniond. cbn [T_].
  rewrite (normalize_unit _ Hab).
  apply cache_of_product; assumption.
Qed.

Lemma cache_of_composition_witness :
  norm (q_ half_turn_x) = 1 /\ norm (q_ half_turn_y) = 1 /\
  cache_consistent half_turn_x /\ cache_consistent half_turn_y /\
  T_ (poseTransform half_turn_x half_turn_y)
  = Matrix4d_mul (T_ half_turn_x) (T_ half_turn_y).
Proof.
  split; [exact norm_half_turn_x|].
  split; [exact norm_half_turn_y|].
  split; [exact (pose_of_cache _ _)|].
  split; [exact (pose_of_cache _ _)|].
  exact (cache_of_composition half_turn_x half_turn_y
           norm_half_turn_x norm_half_turn_y
           (pose_of_cache _ _) (pose_of_cache _ _)).
Defined.

(** *** From a rotation matrix back to the quaternion *)

Lemma sqrt_four_sq (c : R) : sqrt (4 * c * c) = 2 * Rabs c.
Proof.
  replace (4 * c * c) with (Rsqr (2 * c)) by (unfold Rsqr; ring).
  rewrite sqrt_Rsqr_abs, Rabs_mult, (Rabs_pos_eq 2) by lra. reflexivity.
Qed.

(** The four branches of the conversion. *)
Lemma of_matrix_trace (M : Matrix3d R) :
  0 < trace M ->
  Quaterniond_of_matrix M
  = Quat (1 / 2 * sqrt (trace M + 1))
         ((m21 M - m12 M) * (1 / 2 / sqrt (trace M + 1)))
         ((m02 M - m20 M) * (1 / 2 / sqrt (trace M + 1)))
         ((m10 M - m01 M) * (1 / 2 / sqrt (trace M + 1))).
Proof.
  intros Ht. unfold Quaterniond_of_matrix.
  rewrite gtb_true by exact Ht. reflexivity.
Qed.

Lemma of_matrix_x (M : Matrix3d R) :
  trace M <= 0 -> m11 M <= m00 M -> m22 M <= m00 M ->
  Quaterniond_of_matrix M
  = Quat ((m21 M - m12 M) * (1 / 2 / sqrt (m00 M - m11 M - m22 M + 1)))
         (1 / 2 * sqrt (m00 M - m11 M - m22 M + 1))
         ((m10 M + m01 M) * (1 / 2 / sqrt (m00 M - m11 M - m22 M + 1)))
         ((m20 M + m02 M) * (1 / 2 / sqrt (m00 M - m11 M - m22 M + 1))).
Proof.
  intros Ht H1 H2. unfold Quaterniond_of_matrix.
  rewrite (gtb_false (trace M) _) by exact Ht.
  rewrite (gtb_false (m11 M) _) by exact H1.
  cbn [coeff]. rewrite (gtb_false (m22 M) _) by exact H2.
  reflexivity.
Qed.

Lemma of_matrix_y (M : Matrix3d R) :
  trace M <= 0 -> m00 M < m11 M -> m22 M <= m11 M ->
  Quaterniond_of_matrix M
  = Quat ((m02 M - m20 M) * (1 / 2 / sqrt (m11 M - m22 M - m00 M + 1)))
         ((m01 M + m10 M) * (1 / 2 / sqrt (m11 M - m22 M - m00 M + 1)))
         (1 / 2 * sqrt (m11 M - m22 M - m00 M + 1))
         ((m21 M + m12 M) * (1 / 2 / sqrt (m11 M - m22 M - m00 M + 1))).
Proof.
  intros Ht H1 H2. unfold Quaterniond_of_matrix.
  rewrite (gtb_false (trace M) _) by exact Ht.
  rewrite (gtb_true (m11 M) _) by exact H1.
  cbn [coeff]. rewrite (gtb_false (m22 M) _) by exact H2.
  reflexivity.
Qed.

Lemma of_matrix_z (M : Matrix3d R) (i : nat) :
  trace M <= 0 ->
  i = (if s_gtb (m11 M) (m00 M) then 1%nat else 0%nat) ->
  coeff M i i < m22 M ->
  Quaterniond_of_matrix M
  = Quat ((m10 M - m01 M) * (1 / 2 / sqrt (m22 M - m00 M - m11 M + 1)))
         ((m02 M + m20 M) * (1 / 2 / sqrt (m22 M - m00 M - m11 M + 1)))
         ((m12 M + m21 M) * (1 / 2 / sqrt (m22 M - m00 M - m11 M + 1)))
         (1 / 2 * sqrt (m22 M - m00 M - m11 M + 1)).
Proof.
  intros Ht Hi H2. unfold Quaterniond_of_matrix.
  rewrite (gtb_false (trace M) _) by exact Ht.
  rewrite <- Hi.
  rewrite (gtb_true (m22 M) _) by exact H2.
  reflexivity.
Qed.

Lemma toRotationMatrix_entries (w x y z : R) :
  toRotationMatrix (Quat w x y z)
  = Mat3 (1 - (2 * y * y + 2 * z * z)) (2 * y * x - 2 * z * w)
         (2 * z * x + 2 * y * w)
         (2 * y * x + 2 * z * w) (1 - (2 * x * x + 2 * z * z))
         (2 * z * y - 2 * x * w)
         (2 * z * x - 2 * y * w) (2 * z * y + 2 * x * w)
         (1 - (2 * x * x + 2 * y * y)).
Proof. reflexivity. Qed.

Ltac finish c :=
  rewrite sqrt_four_sq;
  assert (c <> 0) by (intros ->; lra);
  destruct (Rlt_dec 0 c);
  [ left; rewrite (Rabs_pos_eq c) by lra
  | right; rewrite (Rabs_left c) by lra ];
  unfold qopp; cbn [qw qx qy qz]; comps; field; lra.

Lemma of_matrix_toRotationMatrix (q : Quaterniond R) :
  squaredNorm q = 1 ->
  Quaterniond_of_matrix (toRotationMatrix q) = q \/
  Quaterniond_of_matrix (toRotationMatrix q) = qopp q.
Proof.
  destruct q as [w x y z]. intros Hq.
  assert (Hn : x * x + y * y + (z * z + w * w) = 1) by exact Hq.
  rewrite toRotationMatrix_entries.
  set (M := Mat3 _ _ _ _ _ _ _ _ _).
  assert (Ht : trace M = 4 * w * w - 1) by (subst M; cbv [trace m00 m11 m22 s_add Scalar_R]; lra).
  destruct (Rlt_dec 0 (trace M)) as [Hp|Hp].
  - rewrite (of_matrix_trace M Hp), Ht. subst M. cbn [m00 m01 m02 m10 m11 m12 m20 m21 m22].
    replace (4 * w * w - 1 + 1) with (4 * w * w) by ring.
    assert (0 < w * w) by lra.
    finish w.
  - destruct (Rlt_dec (m00 M) (m11 M)) as [H1|H1].
    + destruct (Rlt_dec (m11 M) (m22 M)) as [H2|H2].
      * rewrite (of_matrix_z M 1); [|lra| rewrite gtb_true by exact H1; reflexivity | exact H2].
        subst M. cbn [m00 m01 m02 m10 m11 m12 m20 m21 m22] in *.
        replace (1 - (2 * x * x + 2 * y * y) - (1 - (2 * y * y + 2 * z * z))
                 - (1 - (2 * x * x + 2 * z * z)) + 1) with (4 * z * z) by ring.
        assert (0 < z * z) by lra.
        finish z.
      * rewrite (of_matrix_y M); [|lra|exact H1|lra].
        subst M. cbn [m00 m01 m02 m10 m11 m12 m20 m21 m22] in *.
        replace (1 - (2 * x * x + 2 * z * z) - (1 - (2 * x * x + 2 * y * y))
                 - (1 - (2 * y * y + 2 * z * z)) + 1) with (4 * y * y) by ring.
        assert (0 < y * y) by lra.
        finish y.
    + destruct (Rlt_dec (m00 M) (m22 M)) as [H2|H2].
      * rewrite (of_matrix_z M 0); [|lra| rewrite gtb_false by lra; reflexivity | exact H2].
        subst M. cbn [m00 m01 m02 m10 m11 m12 m20 m21 m22] in *.
        replace (1 - (2 * x * x + 2 * y * y) - (1 - (2 * y * y + 2 * z * z))
                 - (1 - (2 * x * x + 2 * z * z)) + 1) with (4 * z * z) by ring.
        assert (0 < z * z) by lra.
        finish z.
      * rewrite (of_matrix_x M); [|lra|lra|lra].
        subst M. cbn [m00 m01 m02 m10 m11 m12 m20 m21 m22] in *.
        replace (1 - (2 * y * y + 2 * z * z) - (1 - (2 * x * x + 2 * z * z))
                 - (1 - (2 * x * x + 2 * y * y)) + 1) with (4 * x * x) by ring.
        assert (0 < x * x) by lra.
        finish x.
Qed.

Lemma toRotationMatrix_qopp (q : Quaterniond R) :
  toRotationMatrix (qopp q) = toRotationMatrix q.
Proof.
  destruct q as [w x y z]. unfold qopp. cbn [qw qx qy qz].
  rewrite !toRotationMatrix_entries. f_equal; ring.
Qed.

Lemma squaredNorm_qopp (q : Quaterniond R) :
  squaredNorm (qopp q) = squaredNorm q.
Proof. destruct q. unfold qopp. to_R. ring. Qed.

(** X10. Built from the rotation matrix of a quaternion q of norm 1, the
    3x3-matrix constructor stores q or its opposite, which is the same
    rotation; the stored rotation has norm 1, the cache is consistent with
    it, and the cache is the one the quaternion constructor builds from
    q. *)
Theorem Pose_Matrix3d_of_rotation (q : Quaterniond R) (t : Vector3d R)
    (td : R) :
  norm q = 1 ->
  (q_ (Pose_Matrix3d (toRotationMatrix q) t td) = q \/
   q_ (Pose_Matrix3d (toRotationMatrix q) t td) = qopp q) /\
  norm (q_ (Pose_Matrix3d (toRotationMatrix q) t td)) = 1 /\
  cache_consistent (Pose_Matrix3d (toRotationMatrix q) t td) /\
  T_ (Pose_Matrix3d (toRotationMatrix q) t td) = T_ (Pose_Quaterniond q t td).
Proof.
  intros Hn. apply norm_one_squaredNorm in Hn.
  pose proof (of_matrix_toRotationMatrix q Hn) as Hq.
  unfold Pose_Matrix3d, Pose_Quaterniond. cbn [q_ T_].
  rewrite (normalize_unit _ Hn).
  split; [exact Hq|]. split; [|split; [|reflexivity]].
  - apply norm_one_squaredNorm.
    destruct Hq as [-> | ->]; [|rewrite squaredNorm_qopp]; exact Hn.
  - fold (cache_of q t).
    destruct (cache_of_consistent q t td) as (Hr & Ht & Hb).
    cbn [q_ t_ T_] in *.
    unfold cache_consistent. cbn [q_ t_ T_].
    repeat split; try assumption.
    rewrite Hr. destruct Hq as [-> | ->]; [|rewrite toRotationMatrix_qopp];
      reflexivity.
Qed.

Lemma Pose_Matrix3d_of_rotation_witness :
  norm (q_ half_turn_x) = 1 /\
  cache_consistent
    (Pose_Matrix3d (toRotationMatrix (q_ half_turn_x)) (Vec3 1 2 3) 0).
Proof.
  split; [exact norm_half_turn_x|].
  exact (proj1 (proj2 (proj2
           (Pose_Matrix3d_of_rotation (q_ half_turn_x) (Vec3 1 2 3) 0
              norm_half_turn_x)))).
Defined.

(** X11. Round trip through the cache: for a pose p with a rotation of norm
    1 and a consistent cache, the 4x4 constructor applied to the cache and
    time offset of p gives p itself, or p with the opposite quaternion; in
    both cases translation, cache and time offset are those of p, the
    rotation has norm 1 and the cache is consistent. *)
Theorem Pose_Matrix4d_of_cache (p : Pose R) :
  norm (q_ p) = 1 -> cache_consistent p ->
  (Pose_Matrix4d (T_ p) (td_ p) = p \/
   q_ (Pose_Matrix4d (T_ p) (td_ p)) = qopp (q_ p)) /\
  t_ (Pose_Matrix4d (T_ p) (td_ p)) = t_ p /\
  T_ (Pose_Matrix4d (T_ p) (td_ p)) = T_ p /\
  td_ (Pose_Matrix4d (T_ p) (td_ p)) = td_ p /\
  norm (q_ (Pose_Matrix4d (T_ p) (td_ p))) = 1 /\
  cache_consistent (Pose_Matrix4d (T_ p) (td_ p)).
Proof.
  intros Hn Hc. apply norm_one_squaredNorm in Hn.
  pose proof (of_matrix_toRotationMatrix (q_ p) Hn) as Hq.
  destruct Hc as (Hr & Ht & Hb).
  unfold Pose_Matrix4d. cbn [q_ t_ T_ td_]. rewrite Hr, Ht.
  assert (Hu : squaredNorm (Quaterniond_of_matrix (toRotationMatrix (q_ p)))
               = 1)
    by (destruct Hq as [-> | ->]; [|rewrite squaredNorm_qopp]; exact Hn).
  rewrite (normalize_unit _ Hu).
  split;
    [|split; [reflexivity|split; [reflexivity|split; [reflexivity|split]]]].
  - destruct Hq as [-> | ->]; [left|right; reflexivity].
    destruct p; reflexivity.
  - apply norm_one_squaredNorm. exact Hu.
  - unfold cache_consistent. cbn [q_ t_ T_]. repeat split; try assumption.
    rewrite Hr. destruct Hq as [-> | ->]; [|rewrite toRotationMatrix_qopp];
      reflexivity.
Qed.

Lemma Pose_Matrix4d_of_cache_witness :
  norm (q_ half_turn_x) = 1 /\ cache_consistent half_turn_x /\
  t_ (Pose_Matrix4d (T_ half_turn_x) (td_ half_turn_x)) = t_ half_turn_x.
Proof.
  split; [exact norm_half_turn_x|].
  split; [exact (pose_of_cache _ _)|].
  exact (proj1 (proj2 (Pose_Matrix4d_of_cache half_turn_x norm_half_turn_x
                         (pose_of_cache _ _)))).
Defined.




End GeometryFacts.

(** ** The averaging, in exact arithmetic *)

Module MeanFacts.
Import Exact ExactFacts Geometry.
Local Open Scope R_scope.

Lemma fold_left_perm (X B : Type) (f : B -> X -> B) :
  (forall a x y, f (f a x) y = f (f a y) x) ->
  forall l l', Permutation l l' ->
  forall acc, fold_left f l acc = fold_left f l' acc.
Proof.
  intros Hf l l' Hp. induction Hp; intros acc; simpl.
  - reflexivity.
  - apply IHHp.
  - rewrite Hf. reflexivity.
  - rewrite IHHp1. apply IHHp2.
Qed.

(** The three sums, one entry at a time. *)
Lemma weight_fold_acc (l : list (R * Pose R)) (acc : R) :
  fold_left (fun a e => s_add a (fst e)) l acc = acc + weight_total l.
Proof.
  unfold weight_total. revert acc.
  induction l as [|e l IH]; intros acc; cbn [fold_left].
  - to_R. ring.
  - rewrite (IH (s_add acc (fst e))), (IH (s_add s_zero (fst e))).
    to_R. ring.
Qed.

Lemma weight_total_cons (e : R * Pose R) (l : list (R * Pose R)) :
  weight_total (e :: l) = fst e + weight_total l.
Proof.
  unfold weight_total at 1. cbn [fold_left]. rewrite weight_fold_acc.
  to_R. ring.
Qed.

Lemma t_fold_acc (l : list (R * Pose R)) (acc : Vector3d R) :
  fold_left (fun a e => vadd a (vscale (fst e) (t_ (snd e)))) l acc
  = vadd acc (t_sum l).
Proof.
  unfold t_sum. revert acc.
  induction l as [|e l IH]; intros acc; cbn [fold_left].
  - destruct acc. to_R. comps; ring.
  - rewrite (IH (vadd acc _)), (IH (vadd Vector3d_Zero _)).
    destruct acc, (t_ (snd e)), (fold_left _ l Vector3d_Zero).
    to_R. comps; ring.
Qed.

Lemma t_sum_cons (e : R * Pose R) (l : list (R * Pose R)) :
  t_sum (e :: l) = vadd (vscale (fst e) (t_ (snd e))) (t_sum l).
Proof.
  unfold t_sum at 1. cbn [fold_left]. rewrite t_fold_acc.
  destruct (t_ (snd e)), (t_sum l). to_R. comps; ring.
Qed.

(** The quaternion accumulated by the third loop, read as (w, x, y, z). *)
Lemma q_fold_acc (l : list (R * Pose R)) (x y z w : R) :
  fold_left
    (fun acc e =>
       let '(x, y, z, w) := acc in
       (s_add x (s_mul (fst e) (qx (q_ (snd e)))),
        s_add y (s_mul (fst e) (qy (q_ (snd e)))),
        s_add z (s_mul (fst e) (qz (q_ (snd e)))),
        s_add w (s_mul (fst e) (qw (q_ (snd e))))))
    l (x, y, z, w)
  = (x + fst (fst (fst (q_sum l))), y + snd (fst (fst (q_sum l))),
     z + snd (fst (q_sum l)), w + snd (q_sum l)).
Proof.
  unfold q_sum. revert x y z w.
  induction l as [|e l IH]; intros x y z w; cbn [fold_left].
  - cbn [fst snd]. to_R. f_equal; [f_equal; [f_equal|]|]; ring.
  - rewrite (IH (s_add x _) (s_add y _) (s_add z _) (s_add w _)).
    rewrite (IH (s_add s_zero _) (s_add s_zero _) (s_add s_zero _)
               (s_add s_zero _)).
    cbn [fst snd]. to_R. f_equal; [f_equal; [f_equal|]|]; ring.
Qed.

Lemma q_total_cons (e : R * Pose R) (l : list (R * Pose R)) :
  qw (q_total (e :: l)) = fst e * qw (q_ (snd e)) + qw (q_total l) /\
  qx (q_total (e :: l)) = fst e * qx (q_ (snd e)) + qx (q_total l) /\
  qy (q_total (e :: l)) = fst e * qy (q_ (snd e)) + qy (q_total l) /\
  qz (q_total (e :: l)) = fst e * qz (q_ (snd e)) + qz (q_total l).
Proof.
  unfold q_total, q_sum at 1 3 5 7. cbn [fold_left]. rewrite q_fold_acc.
  destruct (q_sum l) as [[[x y] z] w]. cbn [fst snd qw qx qy qz].
  to_R. repeat split; ring.
Qed.

Lemma q_total_nil :
  q_total (@nil (R * Pose R)) = Quat 0 0 0 0.
Proof. reflexivity. Qed.

(** The mean pose in terms of the three sums. *)
Lemma computeMeanPose_sums (l : list (R * Pose R)) (pm : Pose R) :
  computeMeanPose l pm
  = Pose_Quaterniond
      (Quat (qw (q_total l) / weight_total l)
            (qx (q_total l) / weight_total l)
            (qy (q_total l) / weight_total l)
            (qz (q_total l) / weight_total l))
      (vdiv (t_sum l) (weight_total l)) 0.
Proof.
  unfold computeMeanPose, q_total.
  destruct (q_sum l) as [[[x y] z] w]. reflexivity.
Qed.

(** *** Copies of one pose *)

Lemma copies_sums (p : Pose R) (ws : list R) :
  t_sum (copies p ws) = vscale (weight_total (copies p ws)) (t_ p) /\
  q_total (copies p ws)
  = Quat (weight_total (copies p ws) * qw (q_ p))
         (weight_total (copies p ws) * qx (q_ p))
         (weight_total (copies p ws) * qy (q_ p))
         (weight_total (copies p ws) * qz (q_ p)).
Proof.
  induction ws as [|w ws [IHt IHq]].
  - unfold copies. cbn [map]. rewrite q_total_nil.
    unfold t_sum, weight_total. cbn [fold_left].
    split; [destruct (t_ p)|]; to_R; comps; ring.
  - unfold copies in *. cbn [map].
    rewrite t_sum_cons, weight_total_cons, IHt. cbn [fst snd].
    destruct (q_total_cons (w, p) (map (fun w => (w, p)) ws))
      as (Hw & Hx & Hy & Hz).
    split.
    + destruct (t_ p). to_R. comps; ring.
    + destruct (q_total ((w, p) :: _)) as [a b c d].
      cbn [qw qx qy qz fst snd] in *. rewrite IHq in *.
      cbn [qw qx qy qz] in *. subst. comps; ring.
Qed.

(** X13. Averaging copies of one pose: when every entry carries the same
    pose p and the weights do not sum to zero, the mean pose has the
    translation of p and the rotation of p normalized, which is the rotation
    of p when that has norm 1; any number of entries, any weights. *)
Theorem mean_of_copies (p : Pose R) (ws : list R) (pm : Pose R) :
  weight_total (copies p ws) <> 0 ->
  t_ (computeMeanPose (copies p ws) pm) = t_ p /\
  q_ (computeMeanPose (copies p ws) pm) = normalize (q_ p) /\
  (norm (q_ p) = 1 -> q_ (computeMeanPose (copies p ws) pm) = q_ p).
Proof.
  intros HW. rewrite computeMeanPose_sums.
  destruct (copies_sums p ws) as [Ht Hq]. rewrite Ht, Hq.
  cbn [q_ t_ Pose_Quaterniond qw qx qy qz].
  set (W := weight_total (copies p ws)) in *.
  assert (Et : vdiv (vscale W (t_ p)) W = t_ p)
    by (destruct (t_ p); to_R; comps; field; exact HW).
  assert (Eq : Quat (W * qw (q_ p) / W) (W * qx (q_ p) / W)
                    (W * qy (q_ p) / W) (W * qz (q_ p) / W) = q_ p)
    by (destruct (q_ p); to_R; comps; field; exact HW).
  rewrite Et, Eq. repeat split.
  intros Hn. apply normalize_unit, norm_one_squaredNorm, Hn.
Qed.

Lemma mean_of_copies_witness :
  weight_total (copies half_turn_x [1; 2]) <> 0 /\
  t_ (computeMeanPose (copies half_turn_x [1; 2]) origin) = t_ half_turn_x.
Proof.
  assert (HW : weight_total (copies half_turn_x [1; 2]) <> 0)
    by (unfold weight_total, copies; cbn [map fold_left fst]; to_R; lra).
  split; [exact HW|].
  exact (proj1 (mean_of_copies half_turn_x [1; 2] origin HW)).
Defined.

(** *** Order and scale of the entries *)

(** X14. The mean pose does not depend on the order of the entries: two
    collections that are permutations of each other have the same mean
    pose, whatever the output parameter held before. *)
Theorem mean_permutation (l l' : list (R * Pose R)) (pm pm' : Pose R) :
  Permutation l l' -> computeMeanPose l pm = computeMeanPose l' pm'.
Proof.
  intros Hp. unfold computeMeanPose.
  assert (EW : weight_total l = weight_total l').
  { unfold weight_total. apply fold_left_perm; [|exact Hp].
    intros a x y. to_R. ring. }
  assert (ET : t_sum l = t_sum l').
  { unfold t_sum. apply fold_left_perm; [|exact Hp].
    intros a x y. destruct a, (t_ (snd x)), (t_ (snd y)). to_R. comps; ring. }
  assert (EQ : q_sum l = q_sum l').
  { unfold q_sum. apply fold_left_perm; [|exact Hp].
    intros [[[a b] c] d] x y. to_R.
    f_equal; [f_equal; [f_equal|]|]; ring. }
  rewrite EW, ET, EQ. reflexivity.
Qed.

Lemma mean_permutation_witness :
  Permutation two_translations (rev two_translations) /\
  computeMeanPose two_translations origin
  = computeMeanPose (rev two_translations) origin.
Proof.
  assert (Hp : Permutation two_translations (rev two_translations))
    by apply perm_swap.
  split; [exact Hp|].
  exact (mean_permutation two_translations (rev two_translations)
           origin origin Hp).
Defined.

Lemma scale_sums (k : R) (l : list (R * Pose R)) :
  weight_total (scale_weights k l) = k * weight_total l /\
  t_sum (scale_weights k l) = vscale k (t_sum l) /\
  q_total (scale_weights k l)
  = Quat (k * qw (q_total l)) (k * qx (q_total l))
         (k * qy (q_total l)) (k * qz (q_total l)).
Proof.
  induction l as [|e l (IHw & IHt & IHq)].
  - unfold scale_weights. cbn [map]. rewrite q_total_nil.
    unfold t_sum, weight_total. cbn [fold_left].
    repeat split; to_R; try comps; ring.
  - unfold scale_weights in *. cbn [map].
    rewrite !weight_total_cons, !t_sum_cons, IHw, IHt. cbn [fst snd].
    destruct (q_total_cons (k * fst e, snd e)
                (map (fun e => (k * fst e, snd e)) l)) as (Hw & Hx & Hy & Hz).
    destruct (q_total_cons e l) as (Hw' & Hx' & Hy' & Hz').
    repeat split.
    + ring.
    + destruct (t_ (snd e)), (t_sum l). to_R. comps; ring.
    + destruct (q_total ((k * fst e, snd e) :: _)) as [a b c d].
      cbn [qw qx qy qz fst snd] in *. rewrite IHq in *.
      cbn [qw qx qy qz] in *. rewrite Hw', Hx', Hy', Hz'.
      subst. comps; ring.
Qed.

(** X15. Only the ratios of the weights matter: multiplying every weight
    by the same non-zero factor leaves the mean pose unchanged, when the
    total weight is not zero. *)
Theorem mean_scale_invariant (k : R) (l : list (R * Pose R)) (pm : Pose R) :
  k <> 0 -> weight_total l <> 0 ->
  computeMeanPose (scale_weights k l) pm = computeMeanPose l pm.
Proof.
  intros Hk HW. rewrite !computeMeanPose_sums.
  destruct (scale_sums k l) as (Ew & Et & Eq). rewrite Ew, Et, Eq.
  cbn [qw qx qy qz]. f_equal.
  - to_R. comps; field; split; assumption.
  - destruct (t_sum l). to_R. comps; field; split; assumption.
Qed.

Lemma weight_two_translations : weight_total two_translations = 2.
Proof.
  unfold weight_total, two_translations. cbn [fold_left fst]. to_R. ring.
Qed.

Lemma mean_scale_invariant_witness :
  3 <> 0 /\ weight_total two_translations <> 0 /\
  computeMeanPose (scale_weights 3 two_translations) origin
  = computeMeanPose two_translations origin.
Proof.
  assert (Hk : 3 <> 0) by lra.
  assert (HW : weight_total two_translations <> 0)
    by (rewrite weight_two_translations; lra).
  split; [exact Hk|]. split; [exact HW|].
  exact (mean_scale_invariant 3 two_translations origin Hk HW).
Defined.

(** *** Opposite quaternions *)

(** X16. The averaging is sensitive to the sign of the quaternions: two
    poses of equal weight whose quaternions are opposite, hence the same
    rotation, average to the zero quaternion, which [normalize()] leaves as
    it is; the mean pose then has a rotation of norm 0. *)
Theorem mean_of_opposites (p1 p2 pm : Pose R) :
  q_ p2 = qopp (q_ p1) ->
  q_ (computeMeanPose [(1, p1); (1, p2)] pm) = Quat 0 0 0 0 /\
  norm (q_ (computeMeanPose [(1, p1); (1, p2)] pm)) = 0.
Proof.
  intros Ho.
  assert (E : q_ (computeMeanPose [(1, p1); (1, p2)] pm) = Quat 0 0 0 0).
  { unfold computeMeanPose, q_sum, t_sum, weight_total. cbn [fold_left fst snd].
    cbn [q_ Pose_Quaterniond]. rewrite Ho.
    destruct (q_ p1) as [w x y z]. unfold qopp. cbn [qw qx qy qz].
    replace (Quat _ _ _ _) with (Quat 0 0 0 0 : Quaterniond R)
      by (to_R; comps; field).
    unfold normalize. rewrite gtb_false; [reflexivity|].
    to_R. lra. }
  split; [exact E|]. rewrite E. unfold norm. to_R.
  replace (0 * 0 + 0 * 0 + (0 * 0 + 0 * 0)) with 0 by ring. apply sqrt_0.
Qed.

Lemma mean_of_opposites_witness :
  q_ half_turn_x_opp = qopp (q_ half_turn_x) /\
  q_ (computeMeanPose [(1, half_turn_x); (1, half_turn_x_opp)] origin)
  = Quat 0 0 0 0.
Proof.
  split; [reflexivity|].
  exact (proj1 (mean_of_opposites half_turn_x half_turn_x_opp origin
                  eq_refl)).
Defined.

(** *** Non-negative weights *)

Lemma div_between (a b s W : R) :
  0 < W -> a * W <= s <= b * W -> a <= s / W <= b.
Proof.
  intros HW [Ha Hb].
  assert (E : s / W * W = s) by (field; lra).
  split; apply (Rmult_le_reg_r W); try exact HW; rewrite E; assumption.
Qed.

Lemma scaled_between (a b t w : R) :
  0 <= w -> a <= t <= b -> a * w <= w * t <= b * w.
Proof.
  intros Hw [Ha Hb]. split.
  - rewrite (Rmult_comm a w). apply Rmult_le_compat_l; assumption.
  - rewrite (Rmult_comm b w). apply Rmult_le_compat_l; assumption.
Qed.

Lemma box_sums (lo hi : Vector3d R) (l : list (R * Pose R)) :
  Forall (fun e => 0 <= fst e /\ in_box lo hi (t_ (snd e))) l ->
  0 <= weight_total l /\
  vx lo * weight_total l <= vx (t_sum l) <= vx hi * weight_total l /\
  vy lo * weight_total l <= vy (t_sum l) <= vy hi * weight_total l /\
  vz lo * weight_total l <= vz (t_sum l) <= vz hi * weight_total l.
Proof.
  induction 1 as [|e l [Hw (Bx & By & Bz)] _ (IW & Ix & Iy & Iz)].
  - unfold weight_total, t_sum. cbn [fold_left]. to_R. lra.
  - rewrite weight_total_cons, t_sum_cons.
    pose proof (scaled_between _ _ _ _ Hw Bx) as Sx.
    pose proof (scaled_between _ _ _ _ Hw By) as Sy.
    pose proof (scaled_between _ _ _ _ Hw Bz) as Sz.
    destruct (t_ (snd e)) as [a b c], (t_sum l) as [a' b' c'].
    to_R. lra.
Qed.

(** X17. With non-negative weights of positive total, the mean translation
    is a convex combination of the input translations: it lies in every
    axis-aligned box that contains all of them. *)
Theorem mean_in_box (lo hi : Vector3d R) (l : list (R * Pose R))
    (pm : Pose R) :
  Forall (fun e => 0 <= fst e /\ in_box lo hi (t_ (snd e))) l ->
  0 < weight_total l ->
  in_box lo hi (t_ (computeMeanPose l pm)).
Proof.
  intros Hl HW. destruct (box_sums lo hi l Hl) as (_ & Ix & Iy & Iz).
  rewrite computeMeanPose_sums. cbn [t_ Pose_Quaterniond].
  unfold in_box, vdiv. cbn [vx vy vz].
  change (@s_div R Scalar_R) with Rdiv.
  split; [|split]; apply div_between; assumption.
Qed.

Lemma two_translations_in_box :
  Forall (fun e => 0 <= fst e /\
                   in_box (Vec3 0 0 0) (Vec3 2 0 0) (t_ (snd e)))
         two_translations.
Proof.
  unfold two_translations, in_box.
  repeat constructor; cbn [fst snd t_ origin shift_x2 pose_of vx vy vz]; lra.
Qed.

Lemma mean_in_box_witness :
  Forall (fun e => 0 <= fst e /\
                   in_box (Vec3 0 0 0) (Vec3 2 0 0) (t_ (snd e)))
         two_translations /\
  0 < weight_total two_translations /\
  in_box (Vec3 0 0 0) (Vec3 2 0 0)
         (t_ (computeMeanPose two_translations origin)).
Proof.
  assert (HW : 0 < weight_total two_translations)
    by (rewrite weight_two_translations; lra).
  split; [exact two_translations_in_box|]. split; [exact HW|].
  exact (mean_in_box (Vec3 0 0 0) (Vec3 2 0 0) two_translations origin
           two_translations_in_box HW).
Defined.

Lemma hemisphere_sums (d : Quaterniond R) (l : list (R * Pose R)) :
  Forall (fun e => 0 <= fst e /\ 0 < dot4 d (q_ (snd e))) l ->
  0 <= weight_total l /\
  0 <= dot4 d (q_total l) /\
  (0 < weight_total l -> 0 < dot4 d (q_total l)).
Proof.
  induction 1 as [|e l [Hw Hd] _ (IW & ID & IP)].
  - rewrite q_total_nil. unfold weight_total, dot4. cbn [fold_left qw qx qy qz].
    to_R. lra.
  - rewrite weight_total_cons.
    destruct (q_total_cons e l) as (Ew & Ex & Ey & Ez).
    assert (E : dot4 d (q_total (e :: l))
                = fst e * dot4 d (q_ (snd e)) + dot4 d (q_total l))
      by (unfold dot4; rewrite Ew, Ex, Ey, Ez; ring).
    rewrite E.
    assert (H0 : 0 <= fst e * dot4 d (q_ (snd e)))
      by (apply Rmult_le_pos; lra).
    repeat split; try lra.
    intros HW. destruct Hw as [Hw|Hw].
    + assert (0 < fst e * dot4 d (q_ (snd e)))
        by (apply Rmult_lt_0_compat; assumption).
      lra.
    + rewrite <- Hw in HW. assert (0 < weight_total l) by lra.
      specialize (IP H). lra.
Qed.

Lemma dot4_zero (d q : Quaterniond R) :
  squaredNorm q = 0 -> dot4 d q = 0.
Proof.
  destruct d as [dw dx dy dz], q as [w x y z]. unfold dot4. to_R.
  intros Hq.
  pose proof (Rle_0_sqr w) as Hw. pose proof (Rle_0_sqr x) as Hx.
  pose proof (Rle_0_sqr y) as Hy. pose proof (Rle_0_sqr z) as Hz.
  unfold Rsqr in *.
  assert (w * w = 0) by lra. assert (x * x = 0) by lra.
  assert (y * y = 0) by lra. assert (z * z = 0) by lra.
  assert (w = 0) by (apply Rsqr_0_uniq; assumption).
  assert (x = 0) by (apply Rsqr_0_uniq; assumption).
  assert (y = 0) by (apply Rsqr_0_uniq; assumption).
  assert (z = 0) by (apply Rsqr_0_uniq; assumption).
  subst. ring.
Qed.

(** X18. With non-negative weights of positive total and input quaternions
    that all lie strictly on one side of a hyperplane through the origin
    (positive dot product with one direction d), the averaged quaternion is
    not zero and the mean pose has a rotation of norm 1. *)
Theorem mean_in_hemisphere_is_unit (d : Quaterniond R)
    (l : list (R * Pose R)) (pm : Pose R) :
  Forall (fun e => 0 <= fst e /\ 0 < dot4 d (q_ (snd e))) l ->
  0 < weight_total l ->
  norm (q_ (computeMeanPose l pm)) = 1.
Proof.
  intros Hl HW. destruct (hemisphere_sums d l Hl) as (_ & _ & HP).
  specialize (HP HW).
  rewrite computeMeanPose_sums. apply Pose_Quaterniond_unit.
  intros Hz. apply (dot4_zero d) in Hz.
  assert (E : dot4 d (Quat (qw (q_total l) / weight_total l)
                           (qx (q_total l) / weight_total l)
                           (qy (q_total l) / weight_total l)
                           (qz (q_total l) / weight_total l))
              = dot4 d (q_total l) / weight_total l)
    by (unfold dot4; cbn [qw qx qy qz]; field; lra).
  rewrite E in Hz.
  assert (0 < dot4 d (q_total l) / weight_total l)
    by (apply Rdiv_lt_0_compat; assumption).
  lra.
Qed.

Lemma two_translations_in_hemisphere :
  Forall (fun e => 0 <= fst e /\ 0 < dot4 (Quat 1 0 0 0) (q_ (snd e)))
         two_translations.
Proof.
  unfold two_translations, dot4.
  repeat constructor;
    cbn [fst snd q_ origin shift_x2 pose_of qw qx qy qz]; lra.
Qed.

Lemma mean_in_hemisphere_is_unit_witness :
  Forall (fun e => 0 <= fst e /\ 0 < dot4 (Quat 1 0 0 0) (q_ (snd e)))
         two_translations /\
  0 < weight_total two_translations /\
  norm (q_ (computeMeanPose two_translations origin)) = 1.
Proof.
  assert (HW : 0 < weight_total two_translations)
    by (rewrite weight_two_translations; lra).
  split; [exact two_translations_in_hemisphere|]. split; [exact HW|].
  exact (mean_in_hemisphere_is_unit (Quat 1 0 0 0) two_translations origin
           two_translations_in_hemisphere HW).
Defined.

End MeanFacts.

(** ** Values that are not finite, on binary64 *)

Module Binary64EdgeFacts.
Import Binary64 Binary64Facts Binary64Edge.
Local Open Scope float_scope.

(** NaN absorbs every operation of the quaternion product. *)
Lemma mul_nan_l a b :
  sf_nan (Prim2SF a) = true -> sf_nan (Prim2SF (a * b)) = true.
Proof.
  rewrite mul_spec. destruct (Prim2SF a); try discriminate. reflexivity.
Qed.

Lemma mul_nan_r a b :
  sf_nan (Prim2SF b) = true -> sf_nan (Prim2SF (a * b)) = true.
Proof.
  rewrite mul_spec. destruct (Prim2SF b); try discriminate.
  destruct (Prim2SF a); reflexivity.
Qed.

Lemma add_nan_l a b :
  sf_nan (Prim2SF a) = true -> sf_nan (Prim2SF (a + b)) = true.
Proof.
  rewrite add_spec. destruct (Prim2SF a); try discriminate. reflexivity.
Qed.

Lemma add_nan_r a b :
  sf_nan (Prim2SF b) = true -> sf_nan (Prim2SF (a + b)) = true.
Proof.
  rewrite add_spec. destruct (Prim2SF b); try discriminate.
  destruct (Prim2SF a); reflexivity.
Qed.

Lemma sub_nan_l a b :
  sf_nan (Prim2SF a) = true -> sf_nan (Prim2SF (a - b)) = true.
Proof.
  rewrite sub_spec. destruct (Prim2SF a); try discriminate. reflexivity.
Qed.

Lemma sub_nan_r a b :
  sf_nan (Prim2SF b) = true -> sf_nan (Prim2SF (a - b)) = true.
Proof.
  rewrite sub_spec. destruct (Prim2SF b); try discriminate.
  destruct (Prim2SF a); reflexivity.
Qed.

Ltac nan_through :=
  solve [ auto 8 using mul_nan_l, mul_nan_r, add_nan_l, add_nan_r,
                       sub_nan_l, sub_nan_r ].

Lemma q_has_nan_cases (q : Quaterniond float) :
  q_has_nan q = true ->
  sf_nan (Prim2SF (qw q)) = true \/ sf_nan (Prim2SF (qx q)) = true \/
  sf_nan (Prim2SF (qy q)) = true \/ sf_nan (Prim2SF (qz q)) = true.
Proof.
  unfold q_has_nan. rewrite !is_nan_spec.
  destruct (sf_nan (Prim2SF (qw q))); [auto|].
  destruct (sf_nan (Prim2SF (qx q))); [auto|].
  destruct (sf_nan (Prim2SF (qy q))); [auto|].
  destruct (sf_nan (Prim2SF (qz q))); [auto|]. discriminate.
Qed.

Lemma q_all_nan_intro (q : Quaterniond float) :
  sf_nan (Prim2SF (qw q)) = true -> sf_nan (Prim2SF (qx q)) = true ->
  sf_nan (Prim2SF (qy q)) = true -> sf_nan (Prim2SF (qz q)) = true ->
  q_all_nan q = true.
Proof.
  intros Hw Hx Hy Hz. unfold q_all_nan.
  rewrite !is_nan_spec, Hw, Hx, Hy, Hz. reflexivity.
Qed.

(** One NaN coefficient in either factor makes the four coefficients of
    the product NaN. *)
Lemma qmul_nan (a b : Quaterniond float) :
  q_has_nan a = true \/ q_has_nan b = true ->
  sf_nan (Prim2SF (qw (qmul a b))) = true /\
  sf_nan (Prim2SF (qx (qmul a b))) = true /\
  sf_nan (Prim2SF (qy (qmul a b))) = true /\
  sf_nan (Prim2SF (qz (qmul a b))) = true.
Proof.
  intros H.
  assert (Hc : (sf_nan (Prim2SF (qw a)) = true \/
                sf_nan (Prim2SF (qx a)) = true \/
                sf_nan (Prim2SF (qy a)) = true \/
                sf_nan (Prim2SF (qz a)) = true) \/
               (sf_nan (Prim2SF (qw b)) = true \/
                sf_nan (Prim2SF (qx b)) = true \/
                sf_nan (Prim2SF (qy b)) = true \/
                sf_nan (Prim2SF (qz b)) = true))
    by (destruct H as [H|H]; [left|right]; apply q_has_nan_cases; exact H).
  unfold qmul. cbn [qw qx qy qz].
  change (@s_mul float Scalar_float) with PrimFloat.mul.
  change (@s_add float Scalar_float) with PrimFloat.add.
  change (@s_sub float Scalar_float) with PrimFloat.sub.
  destruct Hc as [[Hn|[Hn|[Hn|Hn]]]|[Hn|[Hn|[Hn|Hn]]]];
    repeat split; nan_through.
Qed.

(** A NaN coefficient makes the squared norm NaN. *)
Lemma squaredNorm_nan (q : Quaterniond float) :
  q_has_nan q = true -> sf_nan (Prim2SF (squaredNorm q)) = true.
Proof.
  intros Hq. unfold squaredNorm.
  change (@s_mul float Scalar_float) with PrimFloat.mul.
  change (@s_add float Scalar_float) with PrimFloat.add.
  destruct (q_has_nan_cases q Hq) as [Hn|[Hn|[Hn|Hn]]]; nan_through.
Qed.

(** On a NaN squared norm the guard [n2 > 0] of [Quaterniond::inverse()] is
    false, and the zero quaternion comes back. *)
Lemma qinverse_nan (q : Quaterniond float) :
  q_has_nan q = true -> qinverse q = Quat 0 0 0 0.
Proof.
  intros Hq. pose proof (squaredNorm_nan q Hq) as Hn.
  unfold qinverse.
  replace (s_gtb (squaredNorm q) s_zero) with false; [reflexivity|].
  change (false = PrimFloat.ltb 0 (squaredNorm q)).
  rewrite ltb_spec. destruct (Prim2SF (squaredNorm q)); try discriminate.
  reflexivity.
Qed.

(** X19. What becomes of a NaN coefficient of a rotation. The quaternion
    constructor stores a quaternion that has a NaN coefficient with a NaN
    coefficient.  When the rotation of either operand of [poseTransform]
    has a NaN coefficient, all four coefficients of the rotation of the
    result are NaN.  The inverse of a pose whose rotation has a NaN
    coefficient has the zero quaternion (0, 0, 0, 0) as rotation, without
    any NaN: the guard of [Quaterniond::inverse()] is false on a NaN squared
    norm. *)
Theorem nan_in_rotation (a b : Pose float) (q : Quaterniond float)
    (t : Vector3d float) (td : float) :
  (q_has_nan q = true -> q_has_nan (q_ (Pose_Quaterniond q t td)) = true) /\
  (q_has_nan (q_ a) = true \/ q_has_nan (q_ b) = true ->
   q_all_nan (q_ (poseTransform a b)) = true) /\
  (q_has_nan (q_ a) = true ->
   q_ (inverse a) = Quat 0 0 0 0 /\ q_has_nan (q_ (inverse a)) = false).
Proof.
  split; [|split].
  - intros Hq. cbn [q_ Pose_Quaterniond].
    destruct (normalize_keeps_nan q) as (Kw & Kx & Ky & Kz).
    unfold q_has_nan. rewrite !is_nan_spec.
    destruct (q_has_nan_cases q Hq) as [Hn|[Hn|[Hn|Hn]]].
    + rewrite (Kw Hn). reflexivity.
    + rewrite (Kx Hn), ?orb_true_r. reflexivity.
    + rewrite (Ky Hn), ?orb_true_r. reflexivity.
    + rewrite (Kz Hn), ?orb_true_r. reflexivity.
  - intros H. unfold poseTransform. cbn [q_ Pose_Quaterniond].
    destruct (qmul_nan (q_ a) (q_ b) H) as (Hw & Hx & Hy & Hz).
    destruct (normalize_keeps_nan (qmul (q_ a) (q_ b)))
      as (Kw & Kx & Ky & Kz).
    apply q_all_nan_intro; auto.
  - intros Ha. unfold inverse. cbn [q_ Pose_Quaterniond].
    rewrite (qinverse_nan (q_ a) Ha). split; reflexivity.
Qed.

Lemma nan_in_rotation_witness :
  q_has_nan nan_quaternion = true /\
  q_has_nan (q_ (Pose_Quaterniond nan_quaternion Vector3d_Zero 0)) = true /\
  q_has_nan (q_ nan_pose) = true /\
  q_ (inverse nan_pose) = Quat 0 0 0 0.
Proof.
  split; [reflexivity|].
  split.
  - exact (proj1 (nan_in_rotation Pose_default Pose_default
                    nan_quaternion Vector3d_Zero 0) eq_refl).
  - split; [reflexivity|].
    exact (proj1 (proj2 (proj2 (nan_in_rotation nan_pose Pose_default
                                  nan_quaternion Vector3d_Zero 0))
                    eq_refl)).
Defined.

(** *** Overflow of the squared norm *)

Lemma finite_div_inf x :
  is_finite x = true -> sf_zero (Prim2SF (x / infinity)) = true.
Proof.
  intros Hf.
  assert (Hn : non_finite x = false)
    by (unfold non_finite; rewrite Hf; reflexivity).
  rewrite non_finite_spec in Hn. rewrite div_spec.
  change (Prim2SF infinity) with (S754_infinity false).
  destruct (Prim2SF x); try discriminate; reflexivity.
Qed.

Lemma eqb_infinity_eq x : (x =? infinity) = true -> x = infinity.
Proof.
  rewrite eqb_spec. change (Prim2SF infinity) with (S754_infinity false).
  intros H. apply Prim2SF_inj.
  change (Prim2SF infinity) with (S754_infinity false).
  destruct (Prim2SF x) as [|[|]| |[|] ? ?]; try discriminate; reflexivity.
Qed.

Lemma zero_cases x :
  sf_zero (Prim2SF x) = true -> x = 0 \/ x = neg_zero.
Proof.
  intros H. destruct (Prim2SF x) as [[|]| | |] eqn:E; try discriminate.
  - right. apply Prim2SF_inj. rewrite E. reflexivity.
  - left. apply Prim2SF_inj. rewrite E. reflexivity.
Qed.

(** X20. Overflow in [normalize()]: when the four coefficients of a
    quaternion are finite and its squared norm overflows to infinity, the
    division by the infinite norm makes every coefficient a zero, so the
    quaternion constructor stores a rotation of norm 0 instead of 1. *)
Theorem normalize_overflow (q : Quaterniond float) (t : Vector3d float)
    (td : float) :
  is_finite (qw q) = true -> is_finite (qx q) = true ->
  is_finite (qy q) = true -> is_finite (qz q) = true ->
  (squaredNorm q =? infinity) = true ->
  (qw (q_ (Pose_Quaterniond q t td)) =? 0) = true /\
  (qx (q_ (Pose_Quaterniond q t td)) =? 0) = true /\
  (qy (q_ (Pose_Quaterniond q t td)) =? 0) = true /\
  (qz (q_ (Pose_Quaterniond q t td)) =? 0) = true /\
  norm (q_ (Pose_Quaterniond q t td)) = 0 /\
  unit_norm (q_ (Pose_Quaterniond q t td)) = false.
Proof.
  intros Fw Fx Fy Fz Hinf. apply eqb_infinity_eq in Hinf.
  cbn [q_ Pose_Quaterniond]. unfold normalize. rewrite Hinf.
  change (s_gtb infinity s_zero) with true.
  change (s_sqrt infinity) with infinity. cbv iota.
  change (@s_div float Scalar_float) with PrimFloat.div.
  pose proof (finite_div_inf _ Fw) as Zw. pose proof (finite_div_inf _ Fx) as Zx.
  pose proof (finite_div_inf _ Fy) as Zy. pose proof (finite_div_inf _ Fz) as Zz.
  cbn [qw qx qy qz]. rewrite !eqb_zero_spec, Zw, Zx, Zy, Zz.
  do 4 (split; [reflexivity|]).
  destruct (zero_cases _ Zw) as [-> | ->], (zero_cases _ Zx) as [-> | ->],
    (zero_cases _ Zy) as [-> | ->], (zero_cases _ Zz) as [-> | ->];
    split; vm_compute; reflexivity.
Qed.

Lemma normalize_overflow_witness :
  is_finite (qw huge_quaternion) = true /\
  (squaredNorm huge_quaternion =? infinity) = true /\
  unit_norm (q_ (Pose_Quaterniond huge_quaternion Vector3d_Zero 0)) = false.
Proof.
  split; [reflexivity|]. split; [reflexivity|].
  exact (proj2 (proj2 (proj2 (proj2 (proj2
           (normalize_overflow huge_quaternion Vector3d_Zero 0
              eq_refl eq_refl eq_refl eq_refl eq_refl)))))).
Defined.

End Binary64EdgeFacts.

(** ** Rounding far from the origin, on binary64 *)

Module Binary64FarFacts.
Import Binary64 Binary64Far.
Local Open Scope float_scope.



End Binary64FarFacts.

(** ** The cache of the matrix constructors, on binary64 *)

Module Binary64CacheFacts.
Import Binary64.
Local Open Scope float_scope.

(** C9. The 4x4 constructor does not rebuild the cache from the stored
    rotation, as the quaternion constructor does: built from twice the
    identity matrix, the pose stores the rotation (1, 0, 0, 0), whose
    rotation matrix is the identity, and caches the argument as given,
    rotation block 2 I and bottom row (0 0 0 2); its cache is not consistent
    with its fields.  The 3x3 constructor does the same with twice the 3x3
    identity.  The quaternion constructor has a consistent cache on the
    rotation (2, 0, 0, 0). *)
Theorem matrix_cache_not_rebuilt :
  q_ (Pose_Matrix4d twice_identity4 0) = Quat 1 0 0 0 /\
  toRotationMatrix (q_ (Pose_Matrix4d twice_identity4 0))
  = Mat3 1 0 0 0 1 0 0 0 1 /\
  T_ (Pose_Matrix4d twice_identity4 0) = twice_identity4 /\
  topLeftCorner (T_ (Pose_Matrix4d twice_identity4 0)) = twice_identity3 /\
  bottomRow (T_ (Pose_Matrix4d twice_identity4 0)) = (0, 0, 0, 2) /\
  ~ cache_consistent (Pose_Matrix4d twice_identity4 0) /\
  topLeftCorner (T_ (Pose_Matrix3d twice_identity3 Vector3d_Zero 0))
  = twice_identity3 /\
  toRotationMatrix (q_ (Pose_Matrix3d twice_identity3 Vector3d_Zero 0))
  = Mat3 1 0 0 0 1 0 0 0 1 /\
  ~ cache_consistent (Pose_Matrix3d twice_identity3 Vector3d_Zero 0) /\
  cache_consistent (Pose_Quaterniond (Quat 2 0 0 0) Vector3d_Zero 0).
Proof.
  do 5 (split; [vm_compute; reflexivity|]).
  split.
  { intros (_ & _ & Hb). apply (f_equal snd) in Hb. vm_compute in Hb.
    revert Hb. apply Binary64Facts.float_neq; reflexivity. }
  do 2 (split; [vm_compute; reflexivity|]).
  split.
  { intros (Hr & _). apply (f_equal (@m00 float)) in Hr. vm_compute in Hr.
    revert Hr. apply Binary64Facts.float_neq; reflexivity. }
  apply Pose_Quaterniond_cache.
Qed.

End Binary64CacheFacts.
